(** * Voice tools: batch media job orchestration

    A shallow embedding of the browser-side managers of the voice-tools
    page (file upload, transcription, translation, batch processing and
    their shared utilities), followed by the properties of the
    orchestration specification.

    Conventions of the embedding.
    - JavaScript numbers that hold byte counts are naturals ([N]); numbers
      that hold progress percentages are exact rationals ([Q]).  A draw of
      [Math.random()] is a rational [r] with [0 <= r < 1], passed in
      explicitly, so every run is a function of the sequence of draws.
    - The page elements a manager reads or writes are fields of that
      manager's page record; the notifier ([showNotification]) is the
      ordered log of the notifications it was asked to display.
    - [setInterval] callbacks are step functions on the closure they
      capture; one step is one firing of the timer.  The continuation of
      an [await] runs right after the callback that resolved the promise.
    - HTML produced by template literals is kept as the structured data
      that fills the template's holes. *)

From Stdlib Require Import NArith ZArith QArith Qround Lqa Lia.
From Stdlib Require Import Bool List String Ascii DecimalString.
Import ListNotations.

Local Open Scope string_scope.
Local Open Scope list_scope.

(** ** Shared page vocabulary *)

(** A [File] of a file input: [file.name], [file.size], [file.type]. *)
Record File : Type := mkFile {
  name : string;
  size : N;
  type : string
}.

(** One call of [showNotification(message, type)]. *)
Record Notification : Type := mkNotification {
  message : string;
  kind : string
}.

(** A button element: its [disabled] flag and its [textContent]. *)
Record Button : Type := mkButton {
  disabled : bool;
  textContent : string
}.

(** The three elements of a progress display: whether the container is
    shown, the bar's [style.width] in percent and the rounded percentage
    text. *)
Record ProgressView : Type := mkProgressView {
  shown : bool;
  barWidth : Q;
  percentage : Z
}.

(** [Math.round] on a rational: the nearest integer, halves upwards. *)
Definition Math_round (q : Q) : Z := Qfloor (q + (1 # 2)).

(** Decimal rendering of a natural number. *)
Definition N_toString (n : N) : string :=
  NilZero.string_of_uint (N.to_uint n).

(** Decimal rendering of an integer, with a minus sign when negative. *)
Definition Z_toString (z : Z) : string :=
  if (z <? 0)%Z then "-" ++ N_toString (Z.abs_N z)
  else N_toString (Z.abs_N z).

(** ** Utility functions *)

Module AudioTranslateUtils.

Definition k : N := 1024.

Definition sizes : list string := ["Bytes"; "KB"; "MB"; "GB"].

(** [Math.floor(Math.log(bytes) / Math.log(k))] for [bytes >= 1]: the
    integer logarithm in base 1024, taken exactly. *)
Definition unitIndex (bytes : N) : N := (N.log2 bytes / 10)%N.

(** [sizes[i]]; an index past the table reads [undefined], which the
    string concatenation prints as such. *)
Definition sizeLabel (i : N) : string :=
  nth (N.to_nat i) sizes "undefined".

(** [(num / den).toFixed(2)] as a count of hundredths: the integer [n]
    with [n / 100] nearest to the quotient, the larger one on a tie.
    Dividing by a power of 1024 is exact on doubles, so the quotient is
    the rational [num / den]. *)
Definition toFixed2 (num den : N) : N :=
  ((200 * num + den) / (2 * den))%N.

(** [parseFloat(s) + ''] for the two-decimal string [s] of [h]
    hundredths: the shortest decimal of the number, so trailing zeros
    of the fraction (and a bare decimal point) disappear. *)
Definition hundredthsToString (h : N) : string :=
  let whole := (h / 100)%N in
  let frac := (h mod 100)%N in
  if (frac =? 0)%N then N_toString whole
  else if (frac mod 10 =? 0)%N
       then N_toString whole ++ "." ++ N_toString (frac / 10)
       else N_toString whole ++ "." ++ N_toString (frac / 10)
              ++ N_toString (frac mod 10).

Definition formatFileSize (bytes : N) : string :=
  if (bytes =? 0)%N then "0 Bytes"
  else
    let i := unitIndex bytes in
    hundredthsToString (toFixed2 bytes (k ^ i)) ++ " " ++ sizeLabel i.

(** [allowedTypes.includes(t)] *)
Definition includes (allowedTypes : list string) (t : string) : bool :=
  existsb (String.eqb t) allowedTypes.

(** [allowedTypes.join(', ')] *)
Definition join (sep : string) (l : list string) : string :=
  String.concat sep l.

Record ValidationResult : Type := mkValidation {
  isValid : bool;
  errors : list string
}.

Definition typeError (allowedTypes : list string) : string :=
  "File type not supported. Allowed types: " ++ join ", " allowedTypes.

Definition sizeError (maxSize : N) : string :=
  "File too large. Maximum size: " ++ formatFileSize maxSize.

Definition validateFile (file : File) (allowedTypes : list string)
    (maxSize : N) : ValidationResult :=
  let errors0 : list string := [] in
  let errors1 :=
    if negb (includes allowedTypes (type file))
    then errors0 ++ [typeError allowedTypes] else errors0 in
  let errors2 :=
    if (maxSize <? size file)%N
    then errors1 ++ [sizeError maxSize] else errors1 in
  {| isValid := (List.length errors2 =? 0)%nat; errors := errors2 |}.

(** [showNotification(message, type)]: the notification joins the log. *)
Definition showNotification (log : list Notification)
    (message type : string) : list Notification :=
  log ++ [mkNotification message type].

(** [formatTime(seconds)] for a whole number of seconds:
    [Math.floor(seconds / 60)] is the floor quotient and [seconds % 60]
    the remainder with the sign of [seconds]. *)
Definition formatTime (seconds : Z) : string :=
  let minutes := (seconds / 60)%Z in
  let remainingSeconds := Z.rem seconds 60 in
  Z_toString minutes ++ ":"
    ++ (if (remainingSeconds <? 10)%Z then "0" else "")
    ++ Z_toString remainingSeconds.

(** The closure of [debounce(func, wait)]: the pending timer, with the
    arguments its [later] will pass on, and the calls of [func] made so
    far. *)
Record Debounced (A : Type) : Type := mkDebounced {
  timeout : option A;
  invoked : list A
}.
Arguments mkDebounced {A} _ _.
Arguments timeout {A} _.
Arguments invoked {A} _.

(** [debounce(func, wait)]: no timer yet. *)
Definition debounce {A : Type} : Debounced A :=
  {| timeout := None; invoked := [] |}.

(** A call of the debounced function: the pending timer is cleared and
    a new one set for these arguments. *)
Definition executedFunction {A : Type} (args : A) (d : Debounced A)
    : Debounced A :=
  {| timeout := Some args; invoked := invoked d |}.

(** The pending timer fires: [later] calls [func] with its arguments. *)
Definition later {A : Type} (d : Debounced A) : Debounced A :=
  match timeout d with
  | Some args => {| timeout := None; invoked := invoked d ++ [args] |}
  | None => d
  end.

End AudioTranslateUtils.

(** ** Event bus *)

Module EventBus.

(** The members every object inherits from [Object.prototype]: reading
    one of these keys from [this.events] yields a value that is truthy
    and is not an array. *)
Definition inheritedKeys : list string :=
  ["constructor"; "hasOwnProperty"; "isPrototypeOf";
   "propertyIsEnumerable"; "toLocaleString"; "toString"; "valueOf";
   "__proto__"; "__defineGetter__"; "__defineSetter__";
   "__lookupGetter__"; "__lookupSetter__"].

Definition inherited (event : string) : bool :=
  existsb (String.eqb event) inheritedKeys.

(** A callback is known by its identity (callbacks are compared with
    [!==]). *)
Definition Callback : Type := nat.

(** [this.events]: the own properties, each an array of callbacks. *)
Record Bus : Type := mkBus {
  events : list (string * list Callback)
}.

Definition constructor : Bus := {| events := [] |}.

Fixpoint own (event : string) (props : list (string * list Callback))
    : option (list Callback) :=
  match props with
  | [] => None
  | (key, callbacks) :: rest =>
      if String.eqb event key then Some callbacks else own event rest
  end.

(** [this.events[event] = callbacks] *)
Fixpoint assign (event : string) (callbacks : list Callback)
    (props : list (string * list Callback))
    : list (string * list Callback) :=
  match props with
  | [] => [(event, callbacks)]
  | (key, old) :: rest =>
      if String.eqb event key then (key, callbacks) :: rest
      else (key, old) :: assign event callbacks rest
  end.

(** [on(event, callback)]; [None] is the [TypeError] of calling [push]
    on an inherited member. *)
Definition on (event : string) (callback : Callback) (b : Bus)
    : option Bus :=
  match own event (events b) with
  | Some callbacks =>
      Some (mkBus (assign event (callbacks ++ [callback]) (events b)))
  | None =>
      if inherited event then None
      else Some (mkBus (assign event ([] ++ [callback]) (events b)))
  end.

(** [off(event, callback)] *)
Definition off (event : string) (callback : Callback) (b : Bus)
    : option Bus :=
  match own event (events b) with
  | Some callbacks =>
      Some (mkBus
              (assign event
                 (filter (fun cb => negb (Nat.eqb cb callback)) callbacks)
                 (events b)))
  | None => if inherited event then None else Some b
  end.

(** [emit(event, data)]: the calls made, in order, each a callback with
    the data it was handed. *)
Definition emit {D : Type} (event : string) (data : D) (b : Bus)
    : option (list (Callback * D)) :=
  match own event (events b) with
  | Some callbacks => Some (map (fun callback => (callback, data)) callbacks)
  | None => if inherited event then None else Some []
  end.

(** A registration or a removal. *)
Inductive Op : Type :=
| On (event : string) (callback : Callback)
| Off (event : string) (callback : Callback).

Definition apply (b : Bus) (op : Op) : option Bus :=
  match op with
  | On event callback => on event callback b
  | Off event callback => off event callback b
  end.

(** The operations in turn; the first [TypeError] ends the run. *)
Fixpoint run (ops : list Op) (b : Bus) : option Bus :=
  match ops with
  | [] => Some b
  | op :: rest =>
      match apply b op with
      | Some b' => run rest b'
      | None => None
      end
  end.

End EventBus.

(** ** File upload manager *)

Module FileUploadManager.
Import AudioTranslateUtils.

Definition allowedAudioTypes : list string :=
  ["audio/mpeg"; "audio/wav"; "audio/m4a"; "audio/ogg"].

(** [fileInfo.innerHTML] after a selection. *)
Inductive FileInfoView : Type :=
| FileSelected (fileName sizeText : string)
| FileRejected (errorText : string).

(** The elements [handleFileSelection] is handed: the info box, the
    button to enable ([None] when the page has no such button) and the
    notifier. *)
Record UploadArea : Type := mkUploadArea {
  fileInfo : option FileInfoView;
  enableButton : option Button;
  log : list Notification
}.

Definition setDisabled (d : bool) (b : option Button) : option Button :=
  option_map (fun btn => mkButton d (textContent btn)) b.

Definition handleFileSelection (files : list File) (a : UploadArea)
    : UploadArea :=
  match files with
  | [] => a
  | file :: _ =>
      let validation :=
        validateFile file allowedAudioTypes (100 * 1024 * 1024) in
      if isValid validation then
        {| fileInfo :=
             Some (FileSelected (name file) (formatFileSize (size file)));
           enableButton := setDisabled false (enableButton a);
           log := showNotification (log a)
                    "File uploaded successfully!" "success" |}
      else
        {| fileInfo :=
             Some (FileRejected (join ", " (errors validation)));
           enableButton := setDisabled true (enableButton a);
           log := showNotification (log a)
                    (join ", " (errors validation)) "error" |}
  end.

(** One [<li>] of the batch file list. *)
Inductive FileListItem : Type :=
| ItemAccepted (fileName sizeText : string)
| ItemRejected (fileName errorText : string).

(** [fileList.innerHTML]: the list items, then the paragraphs added
    below the list. *)
Record FileListView : Type := mkFileListView {
  items : list FileListItem;
  notes : list string
}.

Record BatchArea : Type := mkBatchArea {
  fileList : option FileListView;
  processBtn : option Button;
  batchLog : list Notification
}.

(** The loop variables of [handleBatchFileSelection]. *)
Record LoopState : Type := mkLoopState {
  fileListHTML : list FileListItem;
  totalSize : N;
  hasErrors : bool
}.

Definition loopBody (st : LoopState) (file : File) : LoopState :=
  let validation :=
    validateFile file allowedAudioTypes (50 * 1024 * 1024) in
  let totalSize' := (totalSize st + size file)%N in
  if isValid validation then
    {| fileListHTML :=
         fileListHTML st
           ++ [ItemAccepted (name file) (formatFileSize (size file))];
       totalSize := totalSize';
       hasErrors := hasErrors st |}
  else
    {| fileListHTML :=
         fileListHTML st
           ++ [ItemRejected (name file) (join ", " (errors validation))];
       totalSize := totalSize';
       hasErrors := true |}.

Definition handleBatchFileSelection (files : list File) (a : BatchArea)
    : BatchArea :=
  if (0 <? List.length files)%nat then
    let st := fold_left loopBody files (mkLoopState [] 0 false) in
    let tooBig := (500 * 1024 * 1024 <? totalSize st)%N in
    let tooMany := (10 <? List.length files)%nat in
    let notes1 :=
      if tooBig then ["Total size exceeds 500MB limit"] else [] in
    let notes2 :=
      if tooMany then notes1 ++ ["Maximum 10 files allowed"] else notes1 in
    let hasErrors' := hasErrors st || tooBig || tooMany in
    {| fileList := Some (mkFileListView (fileListHTML st) notes2);
       processBtn :=
         setDisabled (hasErrors' || (List.length files =? 0)%nat)
           (processBtn a);
       batchLog :=
         if negb hasErrors' then
           showNotification (batchLog a)
             (N_toString (N.of_nat (List.length files))
                ++ " files uploaded successfully!") "success"
         else batchLog a |}
  else a.

End FileUploadManager.

(** ** Simulated progress of a single job

    [simulateTranscriptionProcess] and [simulateTranslationProcess] run
    the same interval callback on a captured [progress]; they differ only
    in the scale of the increment ([Math.random() * 15] and
    [Math.random() * 10]).  [intervalBody delta progress] is that
    callback for the increment [delta]: the new value of [progress] and
    whether the promise was resolved (and the interval cleared). *)
Definition intervalBody (delta progress : Q) : Q * bool :=
  let progress' := (progress + delta)%Q in
  if Qle_bool 100 progress' then (100%Q, true) else (progress', false).

(** ** Transcription manager *)

Module TranscriptionManager.
Import AudioTranslateUtils.

Record Page : Type := mkPage {
  isProcessing : bool;
  files : list File;                (* #transcription-file *)
  transcribeBtn : Button;           (* #transcribe-btn *)
  progressView : ProgressView;      (* #transcription-progress and bar *)
  resultsShown : bool;              (* #transcription-results *)
  log : list Notification;
  timers : list Notification;       (* notifications waiting in setTimeout *)
  interval : option Q               (* [progress] of the running interval *)
}.

(** [new TranscriptionManager()] on the page as loaded. *)
Definition constructor : Page :=
  {| isProcessing := false;
     files := [];
     transcribeBtn := mkButton true "Transcribe Audio";
     progressView := mkProgressView false 0 0;
     resultsShown := false;
     log := [];
     timers := [];
     interval := None |}.

(** The user picks files in the file input. *)
Definition selectFiles (fs : list File) (p : Page) : Page :=
  {| isProcessing := isProcessing p; files := fs;
     transcribeBtn := transcribeBtn p; progressView := progressView p;
     resultsShown := resultsShown p; log := log p; timers := timers p;
     interval := interval p |}.

(** [startTranscription] up to its [await]. *)
Definition startTranscription (p : Page) : Page :=
  if isProcessing p then p
  else if (List.length (files p) =? 0)%nat then
    {| isProcessing := isProcessing p; files := files p;
       transcribeBtn := transcribeBtn p; progressView := progressView p;
       resultsShown := resultsShown p;
       log := showNotification (log p)
                "Please select an audio file first." "error";
       timers := timers p; interval := interval p |}
  else
    {| isProcessing := true; files := files p;
       transcribeBtn := mkButton true "Processing...";
       progressView :=
         mkProgressView true (barWidth (progressView p))
           (percentage (progressView p));
       resultsShown := resultsShown p; log := log p; timers := timers p;
       interval := Some 0%Q |}.

(** The rest of [startTranscription], run when the promise resolves:
    the results, the success notification and the [finally] block. *)
Definition afterAwait (p : Page) : Page :=
  {| isProcessing := false; files := files p;
     transcribeBtn := mkButton false "Transcribe Audio";
     progressView := progressView p;
     resultsShown := true;
     log := showNotification (log p)
              "Transcription completed successfully!" "success";
     timers := timers p; interval := interval p |}.

(** One firing of the interval of [simulateTranscriptionProcess], with
    [r] the value of [Math.random()]. *)
Definition tick (r : Q) (p : Page) : Page :=
  match interval p with
  | None => p
  | Some progress =>
      let '(progress', resolved) := intervalBody (r * 15) progress in
      let p' :=
        {| isProcessing := isProcessing p; files := files p;
           transcribeBtn := transcribeBtn p;
           progressView :=
             mkProgressView (shown (progressView p)) progress'
               (Math_round progress');
           resultsShown := resultsShown p; log := log p;
           timers := timers p;
           interval := if resolved then None else Some progress' |} in
      if resolved then afterAwait p' else p'
  end.

Definition downloadName (format : string) : string :=
  "transcription." ++ format.

Definition handleDownload (format : string) (p : Page) : Page :=
  let filename := downloadName format in
  {| isProcessing := isProcessing p; files := files p;
     transcribeBtn := transcribeBtn p; progressView := progressView p;
     resultsShown := resultsShown p;
     log := showNotification (log p)
              ("Downloading " ++ filename ++ "...") "info";
     timers := timers p
                 ++ [mkNotification
                       (filename ++ " downloaded successfully!") "success"];
     interval := interval p |}.

(** The oldest pending [setTimeout] fires. *)
Definition fireTimer (p : Page) : Page :=
  match timers p with
  | [] => p
  | n :: rest =>
      {| isProcessing := isProcessing p; files := files p;
         transcribeBtn := transcribeBtn p; progressView := progressView p;
         resultsShown := resultsShown p;
         log := showNotification (log p) (message n) (kind n);
         timers := rest; interval := interval p |}
  end.

End TranscriptionManager.

(** ** JavaScript [Set] of strings

    A [Set] iterates in insertion order and holds each value once: a list
    without repetitions, new values at the end. *)

Module JsSet.

Definition t : Type := list string.

Definition empty : t := [].

Definition has (x : string) (s : t) : bool := existsb (String.eqb x) s.

Definition add (x : string) (s : t) : t :=
  if has x s then s else s ++ [x].

Definition delete (x : string) (s : t) : t :=
  filter (fun y => negb (String.eqb x y)) s.

Definition size (s : t) : nat := List.length s.

End JsSet.

(** [String.prototype.toLowerCase] on the ASCII letters. *)
Definition lowerAscii (c : ascii) : ascii :=
  let n := nat_of_ascii c in
  if ((65 <=? n) && (n <=? 90))%nat then ascii_of_nat (n + 32) else c.

Fixpoint toLowerCase (s : string) : string :=
  match s with
  | EmptyString => EmptyString
  | String c rest => String (lowerAscii c) (toLowerCase rest)
  end.

(** ** Translation manager *)

Module TranslationManager.
Import AudioTranslateUtils.

(** A [.language-option] element: its [data-lang] attribute and whether
    it carries the class [selected]. *)
Record LanguageOption : Type := mkLanguageOption {
  dataLang : string;
  selectedClass : bool
}.

(** What [languages[langCode]] yields, as far as the code reads it: the
    [name] property, [None] where the value found has none (the flag
    glyph, which is only displayed, is left out). *)
Record LanguageData : Type := mkLanguageData {
  name : option string
}.

(** An [.audio-player] block of the results: its [data-language]
    attribute, its heading and the [data-format] of each of its
    download buttons, in document order. *)
Record AudioPlayer : Type := mkAudioPlayer {
  dataLanguage : string;
  heading : string;
  downloadBtns : list string
}.

Record Page : Type := mkPage {
  selectedLanguages : JsSet.t;
  isProcessing : bool;
  languageOptions : list LanguageOption;
  files : list File;                   (* #translation-file *)
  translateBtn : Button;               (* #translate-btn *)
  progressView : ProgressView;
  resultsShown : bool;                 (* #translation-results *)
  translationOutputs : list AudioPlayer;
  log : list Notification;
  timers : list Notification;
  interval : option Q
}.

Definition setSelection (s : JsSet.t) (os : list LanguageOption) (p : Page)
    : Page :=
  mkPage s (isProcessing p) os (files p) (translateBtn p) (progressView p)
    (resultsShown p) (translationOutputs p) (log p) (timers p) (interval p).

Definition setTranslateBtn (b : Button) (p : Page) : Page :=
  mkPage (selectedLanguages p) (isProcessing p) (languageOptions p)
    (files p) b (progressView p) (resultsShown p) (translationOutputs p)
    (log p) (timers p) (interval p).

Definition setLog (l timers' : list Notification) (p : Page) : Page :=
  mkPage (selectedLanguages p) (isProcessing p) (languageOptions p)
    (files p) (translateBtn p) (progressView p) (resultsShown p)
    (translationOutputs p) l timers' (interval p).

Definition notify (message type : string) (p : Page) : Page :=
  setLog (showNotification (log p) message type) (timers p) p.

(** The language options of the page as loaded. *)
Definition pageLanguages : list string :=
  ["de"; "fr"; "ru"; "zh"; "ja"; "hi"; "ar"; "it"].

(** [new TranslationManager()] on a page with the given options. *)
Definition constructor (langs : list string) : Page :=
  {| selectedLanguages := JsSet.empty;
     isProcessing := false;
     languageOptions := map (fun l => mkLanguageOption l false) langs;
     files := [];
     translateBtn := mkButton true "Translate Audio";
     progressView := mkProgressView false 0 0;
     resultsShown := false;
     translationOutputs := [];
     log := [];
     timers := [];
     interval := None |}.

Definition selectFiles (fs : list File) (p : Page) : Page :=
  mkPage (selectedLanguages p) (isProcessing p) (languageOptions p) fs
    (translateBtn p) (progressView p) (resultsShown p)
    (translationOutputs p) (log p) (timers p) (interval p).

Definition updateTranslateButton (p : Page) : Page :=
  setTranslateBtn
    (mkButton (JsSet.size (selectedLanguages p) =? 0)%nat
       (textContent (translateBtn p))) p.

(** The [Set] part of the click listener of a language option. *)
Definition toggle (lang : string) (s : JsSet.t) : JsSet.t :=
  if JsSet.has lang s then JsSet.delete lang s else JsSet.add lang s.

Fixpoint setClassAt (i : nat) (c : bool) (os : list LanguageOption)
    : list LanguageOption :=
  match i, os with
  | _, [] => []
  | O, o :: rest => mkLanguageOption (dataLang o) c :: rest
  | S i', o :: rest => o :: setClassAt i' c rest
  end.

(** A click on the [i]-th language option. *)
Definition clickLanguageOption (i : nat) (p : Page) : Page :=
  match nth_error (languageOptions p) i with
  | None => p
  | Some option =>
      let lang := dataLang option in
      let selected' := negb (JsSet.has lang (selectedLanguages p)) in
      updateTranslateButton
        (setSelection (toggle lang (selectedLanguages p))
           (setClassAt i selected' (languageOptions p)) p)
  end.

Definition languages : list (string * LanguageData) :=
  [ ("de", mkLanguageData (Some "German"));
    ("fr", mkLanguageData (Some "French"));
    ("ru", mkLanguageData (Some "Russian"));
    ("zh", mkLanguageData (Some "Chinese"));
    ("ja", mkLanguageData (Some "Japanese"));
    ("hi", mkLanguageData (Some "Hindi"));
    ("ar", mkLanguageData (Some "Arabic"));
    ("it", mkLanguageData (Some "Italian")) ].

Fixpoint lookup (key : string) (table : list (string * LanguageData))
    : option LanguageData :=
  match table with
  | [] => None
  | (k', v) :: rest => if String.eqb key k' then Some v else lookup key rest
  end.

(** The table is a plain object, so a key it does not hold is looked up
    among the members every object inherits: ["__proto__"] yields the
    prototype object, which has no [name]; ["constructor"] yields the
    function [Object]; every other inherited key yields a function
    whose [name] is the key.  All of these are truthy. *)
Definition inheritedMember (key : string) : option LanguageData :=
  if String.eqb key "__proto__" then Some (mkLanguageData None)
  else if String.eqb key "constructor" then
    Some (mkLanguageData (Some "Object"))
  else if EventBus.inherited key then Some (mkLanguageData (Some key))
  else None.

(** [languages[langCode] || { name: 'Unknown', ... }] *)
Definition getLanguageData (langCode : string) : LanguageData :=
  match lookup langCode languages with
  | Some d => d
  | None =>
      match inheritedMember langCode with
      | Some member => member
      | None => mkLanguageData (Some "Unknown")
      end
  end.

(** [createTranslationOutput(languageData)]; [None] is the [TypeError]
    of [languageData.name.toLowerCase()] on a value without [name]. *)
Definition createTranslationOutput (languageData : LanguageData)
    : option AudioPlayer :=
  match name languageData with
  | Some n =>
      Some {| dataLanguage := toLowerCase n;
              heading := n ++ " Translation";
              downloadBtns := ["mp3"; "wav"; "srt"] |}
  | None => None
  end.

(** The loop of [showTranslationResults] over the languages still to
    come, with [html] the blocks appended so far: the value of
    [translationOutputs.innerHTML] when the loop ends, and whether it
    ended normally ([false]: a [TypeError] left the loop, and the
    blocks appended before it stay). *)
Fixpoint appendOutputs (langs : list string) (html : list AudioPlayer)
    : list AudioPlayer * bool :=
  match langs with
  | [] => (html, true)
  | lang :: rest =>
      match createTranslationOutput (getLanguageData lang) with
      | Some block => appendOutputs rest (html ++ [block])
      | None => (html, false)
      end
  end.

(** One block per selected language, in the [Set]'s order, from an
    emptied container. *)
Definition buildOutputs (s : JsSet.t) : list AudioPlayer * bool :=
  appendOutputs s [].

(** [showTranslationResults()]: the page afterwards, and whether the
    call returned normally. *)
Definition showTranslationResults (p : Page) : Page * bool :=
  let built := buildOutputs (selectedLanguages p) in
  (mkPage (selectedLanguages p) (isProcessing p) (languageOptions p)
     (files p) (translateBtn p) (progressView p) true
     (fst built) (log p) (timers p) (interval p),
   snd built).

(** [startTranslation] up to its [await]. *)
Definition startTranslation (p : Page) : Page :=
  if isProcessing p then p
  else if (List.length (files p) =? 0)%nat then
    notify "Please select an audio file first." "error" p
  else if (JsSet.size (selectedLanguages p) =? 0)%nat then
    notify "Please select at least one target language." "error" p
  else
    mkPage (selectedLanguages p) true (languageOptions p) (files p)
      (mkButton true "Translating...")
      (mkProgressView true (barWidth (progressView p))
         (percentage (progressView p)))
      (resultsShown p) (translationOutputs p) (log p) (timers p)
      (Some 0%Q).

(** The rest of [startTranslation], run when the promise resolves: the
    results and the success notification, or the failure notification
    of the [catch] block when showing the results threw; then the
    [finally] block. *)
Definition afterAwait (p : Page) : Page :=
  let shown := showTranslationResults p in
  let p1 :=
    notify
      (if snd shown then "Translation completed successfully!"
       else "Translation failed. Please try again.")
      (if snd shown then "success" else "error")
      (fst shown) in
  mkPage (selectedLanguages p1) false (languageOptions p1) (files p1)
    (mkButton false "Translate Audio") (progressView p1) (resultsShown p1)
    (translationOutputs p1) (log p1) (timers p1) (interval p1).

(** One firing of the interval of [simulateTranslationProcess], with
    [r] the value of [Math.random()]. *)
Definition tick (r : Q) (p : Page) : Page :=
  match interval p with
  | None => p
  | Some progress =>
      let '(progress', resolved) := intervalBody (r * 10) progress in
      let p' :=
        mkPage (selectedLanguages p) (isProcessing p) (languageOptions p)
          (files p) (translateBtn p)
          (mkProgressView (shown (progressView p)) progress'
             (Math_round progress'))
          (resultsShown p) (translationOutputs p) (log p) (timers p)
          (if resolved then None else Some progress') in
      if resolved then afterAwait p' else p'
  end.

Definition downloadName (language format : string) : string :=
  "translation_" ++ language ++ "." ++ format.

Definition handleTranslationDownload (language format : string) (p : Page)
    : Page :=
  let filename := downloadName language format in
  setLog
    (showNotification (log p) ("Downloading " ++ filename ++ "...") "info")
    (timers p
       ++ [mkNotification (filename ++ " downloaded successfully!")
             "success"])
    p.

(** A click on the [j]-th download button of the [i]-th audio player:
    the document listener reads the button's [data-format] and the
    player's [data-language]. *)
Definition clickDownload (i j : nat) (p : Page) : Page :=
  match nth_error (translationOutputs p) i with
  | None => p
  | Some player =>
      match nth_error (downloadBtns player) j with
      | None => p
      | Some format =>
          handleTranslationDownload (dataLanguage player) format p
      end
  end.

Definition fireTimer (p : Page) : Page :=
  match timers p with
  | [] => p
  | n :: rest =>
      setLog (showNotification (log p) (message n) (kind n)) rest p
  end.

Definition getSelectedLanguages (p : Page) : list string :=
  selectedLanguages p.

Definition clearSelection (p : Page) : Page :=
  updateTranslateButton
    (setSelection JsSet.empty
       (map (fun o => mkLanguageOption (dataLang o) false)
          (languageOptions p)) p).

(** The download buttons of the results, each with the pair
    (language, format) its click hands to [handleTranslationDownload]. *)
Definition artifacts (outputs : list AudioPlayer) : list (string * string) :=
  flat_map
    (fun player =>
       map (fun f => (dataLanguage player, f)) (downloadBtns player))
    outputs.

End TranslationManager.

(** ** Batch processing manager *)

Module BatchProcessingManager.
Import AudioTranslateUtils.

(** An element of [currentBatch], as [getBatchSummary] reads it:
    [file.status] and [file.size]. *)
Record BatchEntry : Type := mkBatchEntry {
  status : string;
  entrySize : N
}.

(** A [.file-result-item] block of the results. *)
Record FileResultItem : Type := mkFileResultItem {
  itemName : string;
  itemSize : string;
  itemOperation : string;
  itemStatus : string;
  fileIndex : nat
}.

(** [batchOutputs.innerHTML] as [showBatchResults] builds it. *)
Record BatchResults : Type := mkBatchResults {
  processedCount : nat;
  operationName : string;
  fileResults : list FileResultItem
}.

(** The closure of the interval of [simulateBatchProcess]. *)
Record Simulation : Type := mkSimulation {
  progress : Q;
  filesProcessed : Z;
  progressPerFile : Q;
  currentFile : Z
}.

Record Page : Type := mkPage {
  currentBatch : list BatchEntry;
  isProcessing : bool;
  files : list File;                 (* #batch-files *)
  operation : string;                (* #batch-operation *)
  fileListShown : bool;              (* #batch-file-list has content *)
  processBtn : Button;               (* #process-batch-btn *)
  progressView : ProgressView;       (* #batch-progress and bar *)
  resultsShown : bool;               (* #batch-results *)
  batchOutputs : option BatchResults;
  log : list Notification;
  timers : list Notification;
  interval : option Simulation;
  suspended : option string          (* [operation] of the awaiting call *)
}.

Definition setLog (l timers' : list Notification) (p : Page) : Page :=
  mkPage (currentBatch p) (isProcessing p) (files p) (operation p)
    (fileListShown p) (processBtn p) (progressView p) (resultsShown p)
    (batchOutputs p) l timers' (interval p) (suspended p).

Definition notify (message type : string) (p : Page) : Page :=
  setLog (showNotification (log p) message type) (timers p) p.

(** [new BatchProcessingManager()] on the page as loaded. *)
Definition constructor : Page :=
  {| currentBatch := [];
     isProcessing := false;
     files := [];
     operation := "transcribe";
     fileListShown := false;
     processBtn := mkButton true "Process Files";
     progressView := mkProgressView false 0 0;
     resultsShown := false;
     batchOutputs := None;
     log := [];
     timers := [];
     interval := None;
     suspended := None |}.

(** The user picks files in the file input; the upload manager's change
    listener enables or disables the process button. *)
Definition selectFiles (fs : list File) (btnDisabled : bool) (p : Page)
    : Page :=
  mkPage (currentBatch p) (isProcessing p) fs (operation p)
    (0 <? List.length fs)%nat
    (mkButton btnDisabled (textContent (processBtn p)))
    (progressView p) (resultsShown p) (batchOutputs p) (log p) (timers p)
    (interval p) (suspended p).

(** The user picks an entry of the operation menu. *)
Definition selectOperation (op : string) (p : Page) : Page :=
  mkPage (currentBatch p) (isProcessing p) (files p) op (fileListShown p)
    (processBtn p) (progressView p) (resultsShown p) (batchOutputs p)
    (log p) (timers p) (interval p) (suspended p).

(** The synchronous part of [simulateBatchProcess]: the variables the
    interval captures.  ([fileCount] is at least 1 whenever
    [processBatch] calls it.) *)
Definition simulateBatchProcess (fileCount : Z) : Simulation :=
  let filesProcessed := Z.min fileCount 10 in
  {| progress := 0;
     filesProcessed := filesProcessed;
     progressPerFile := 100 / inject_Z filesProcessed;
     currentFile := 0 |}.

(** The interval callback on its closure, with [r] the value of
    [Math.random()]: the closure afterwards and whether the promise was
    resolved (and the interval cleared). *)
Definition intervalCallback (r : Q) (s : Simulation) : Simulation * bool :=
  let fileProgress := (r * 20)%Q in
  let progress1 :=
    (inject_Z (currentFile s) * progressPerFile s
     + fileProgress * progressPerFile s / 100)%Q in
  let resolved := Qle_bool 100 progress1 in
  let progress2 := if resolved then 100%Q else progress1 in
  let currentFile' :=
    if Qle_bool 95 fileProgress
       && (currentFile s <? filesProcessed s - 1)%Z
    then (currentFile s + 1)%Z else currentFile s in
  ({| progress := progress2;
      filesProcessed := filesProcessed s;
      progressPerFile := progressPerFile s;
      currentFile := currentFile' |}, resolved).

Definition operations : list (string * string) :=
  [ ("transcribe", "Transcription");
    ("translate", "Translation");
    ("both", "Transcription & Translation") ].

Fixpoint lookup (key : string) (table : list (string * string))
    : option string :=
  match table with
  | [] => None
  | (k', v) :: rest => if String.eqb key k' then Some v else lookup key rest
  end.

Definition getOperationName (operation : string) : string :=
  match lookup operation operations with
  | Some n => n
  | None => operation
  end.

Definition createFileResultItem (file : File) (index : nat)
    (operation : string) : FileResultItem :=
  let status := "completed" in
  let fileSize := formatFileSize (size file) in
  {| itemName := name file;
     itemSize := fileSize;
     itemOperation := operation;
     itemStatus := status;
     fileIndex := index |}.

Fixpoint fileItems (fs : list File) (index : nat) (operation : string)
    : list FileResultItem :=
  match fs with
  | [] => []
  | f :: rest =>
      createFileResultItem f index operation
        :: fileItems rest (S index) operation
  end.

Definition showBatchResults (operation : string) (fs : list File)
    (p : Page) : Page :=
  mkPage (currentBatch p) (isProcessing p) (files p)
    (BatchProcessingManager.operation p)
    (fileListShown p) (processBtn p) (progressView p) true
    (Some (mkBatchResults (List.length fs) (getOperationName operation)
             (fileItems fs 0 operation)))
    (log p) (timers p) (interval p) (suspended p).

(** [processBatch] up to its [await].  [operation] is read here and kept
    by the suspended call. *)
Definition processBatch (p : Page) : Page :=
  if isProcessing p then p
  else if (List.length (files p) =? 0)%nat then
    notify "Please select files to process." "error" p
  else
    mkPage (currentBatch p) true (files p) (operation p) (fileListShown p)
      (mkButton true "Processing...")
      (mkProgressView true (barWidth (progressView p))
         (percentage (progressView p)))
      (resultsShown p) (batchOutputs p) (log p) (timers p)
      (Some (simulateBatchProcess (Z.of_nat (List.length (files p)))))
      (Some (operation p)).

(** The rest of [processBatch], run when the promise resolves. *)
Definition afterAwait (p : Page) : Page :=
  let operation0 :=
    match suspended p with Some op => op | None => operation p end in
  let p1 := notify "Batch processing completed!" "success"
              (showBatchResults operation0 (files p) p) in
  mkPage (currentBatch p1) false (files p1) (operation p1)
    (fileListShown p1) (mkButton false "Process Files") (progressView p1)
    (resultsShown p1) (batchOutputs p1) (log p1) (timers p1) (interval p1)
    None.

(** One firing of the interval. *)
Definition tick (r : Q) (p : Page) : Page :=
  match interval p with
  | None => p
  | Some s =>
      let '(s', resolved) := intervalCallback r s in
      let p' :=
        mkPage (currentBatch p) (isProcessing p) (files p) (operation p)
          (fileListShown p) (processBtn p)
          (mkProgressView (shown (progressView p)) (progress s')
             (Math_round (progress s')))
          (resultsShown p) (batchOutputs p) (log p) (timers p)
          (if resolved then None else Some s') (suspended p) in
      if resolved then afterAwait p' else p'
  end.

Definition handleBatchDownload (format : string) (p : Page) : Page :=
  let filename := ("batch_results." ++ format)%string in
  setLog
    (showNotification (log p)
       ("Preparing " ++ filename ++ " for download...") "info")
    (timers p
       ++ [mkNotification (filename ++ " downloaded successfully!")
             "success"])
    p.

Definition fireTimer (p : Page) : Page :=
  match timers p with
  | [] => p
  | n :: rest =>
      setLog (showNotification (log p) (message n) (kind n)) rest p
  end.

Record BatchSummary : Type := mkBatchSummary {
  totalFiles : nat;
  processedFiles : nat;
  failedFiles : nat;
  totalSize : N
}.

Definition getBatchSummary (p : Page) : BatchSummary :=
  {| totalFiles := List.length (currentBatch p);
     processedFiles :=
       List.length
         (filter (fun file => String.eqb (status file) "completed")
            (currentBatch p));
     failedFiles :=
       List.length
         (filter (fun file => String.eqb (status file) "failed")
            (currentBatch p));
     totalSize :=
       fold_left (fun sum file => (sum + entrySize file)%N)
         (currentBatch p) 0%N |}.

Definition resetBatch (p : Page) : Page :=
  mkPage [] (isProcessing p) [] (operation p) false
    (mkButton true (textContent (processBtn p))) (progressView p) false
    (batchOutputs p) (log p) (timers p) (interval p) (suspended p).

(** What can happen to the manager, one event at a time. *)
Inductive Event : Type :=
| SelectFiles (fs : list File) (btnDisabled : bool)
| SelectOperation (op : string)
| ProcessBatch
| Tick (r : Q)
| BatchDownload (format : string)
| FireTimer
| GetBatchSummary
| ResetBatch.

Definition step (p : Page) (e : Event) : Page :=
  match e with
  | SelectFiles fs d => selectFiles fs d p
  | SelectOperation op => selectOperation op p
  | ProcessBatch => processBatch p
  | Tick r => tick r p
  | BatchDownload format => handleBatchDownload format p
  | FireTimer => fireTimer p
  | GetBatchSummary => p
  | ResetBatch => resetBatch p
  end.

Definition run (es : list Event) (p : Page) : Page := fold_left step es p.

End BatchProcessingManager.

(** ** A single job as a state machine

    While the interval of a simulation runs the job is [Running]; the
    callback that resolves the promise completes it, and a cleared
    interval never fires again. *)

Inductive JobStatus : Type := Running | Completed.

Record Job : Type := mkJob {
  jobStatus : JobStatus;
  progressPercent : Q
}.

(** The job right after [setInterval]: [let progress = 0]. *)
Definition startedJob : Job := mkJob Running 0.

(** The job receives the progress increment [delta]. *)
Definition receive (j : Job) (delta : Q) : Job :=
  match jobStatus j with
  | Completed => j
  | Running =>
      let '(progress', resolved) := intervalBody delta (progressPercent j) in
      mkJob (if resolved then Completed else Running) progress'
  end.

Definition runJob (j : Job) (deltas : list Q) : Job :=
  fold_left receive deltas j.

(** The running total of a sequence of increments. *)
Definition total (deltas : list Q) : Q := fold_right Qplus 0%Q deltas.

(** ** The three managers with a single-flight guard *)

Inductive Manager : Type :=
| Batch (p : BatchProcessingManager.Page)
| Translation (p : TranslationManager.Page)
| Transcription (p : TranscriptionManager.Page).

Definition managerIsProcessing (m : Manager) : bool :=
  match m with
  | Batch p => BatchProcessingManager.isProcessing p
  | Translation p => TranslationManager.isProcessing p
  | Transcription p => TranscriptionManager.isProcessing p
  end.

(** The start call of each manager. *)
Definition start (m : Manager) : Manager :=
  match m with
  | Batch p => Batch (BatchProcessingManager.processBatch p)
  | Translation p => Translation (TranslationManager.startTranslation p)
  | Transcription p => Transcription (TranscriptionManager.startTranscription p)
  end.

(** A draw of [Math.random()]. *)
Definition isDraw (r : Q) : Prop := (0 <= r /\ r < 1)%Q.

(** The closure of a batch simulation whose file pointer is still on the
    first file: the constants are those [simulateBatchProcess] computed
    for a batch of 1 to 10 counted files, and the progress is below 20. *)
Definition onFirstFile (s : BatchProcessingManager.Simulation) : Prop :=
  BatchProcessingManager.currentFile s = 0%Z
  /\ (1 <= BatchProcessingManager.filesProcessed s <= 10)%Z
  /\ BatchProcessingManager.progressPerFile s
     = (100 / inject_Z (BatchProcessingManager.filesProcessed s))%Q
  /\ (0 <= BatchProcessingManager.progress s
      /\ BatchProcessingManager.progress s < 20)%Q.

(** The timer of the batch simulation fires once per draw. *)
Definition batchTicks (rs : list Q) (p : BatchProcessingManager.Page)
    : BatchProcessingManager.Page :=
  BatchProcessingManager.run (map BatchProcessingManager.Tick rs) p.


(** The language selection after clicks on the options with the given
    codes, from the empty [Set] of the constructor. *)
Definition selectionAfter (clicks : list string) : JsSet.t :=
  fold_left (fun s lang => TranslationManager.toggle lang s) clicks
    JsSet.empty.

(** The timer of the translation simulation fires once per draw. *)
Definition translationTicks (rs : list Q) (p : TranslationManager.Page)
    : TranslationManager.Page :=
  fold_left (fun q r => TranslationManager.tick r q) rs p.

(** The [data-language] under which the results of a selected code are
    filed; [None] when no block can be built for it. *)
Definition languageOf (langCode : string) : option string :=
  option_map TranslationManager.dataLanguage
    (TranslationManager.createTranslationOutput
       (TranslationManager.getLanguageData langCode)).

(** The block of the results belongs to the language code. *)
Definition blockOf (langCode : string)
    (block : TranslationManager.AudioPlayer) : Prop :=
  TranslationManager.createTranslationOutput
    (TranslationManager.getLanguageData langCode) = Some block.

(** The character of a decimal digit. *)
Definition digitChar (d : Z) : ascii := ascii_of_nat (48 + Z.to_nat d).

(** The calls of a debounced function in turn. *)
Definition burst {A : Type} (argss : list A)
    (d : AudioTranslateUtils.Debounced A) : AudioTranslateUtils.Debounced A :=
  fold_left (fun d' args => AudioTranslateUtils.executedFunction args d')
    argss d.

(** The callbacks registered for an event, in registration order. *)
Definition listeners (event : string) (b : EventBus.Bus)
    : list EventBus.Callback :=
  match EventBus.own event (EventBus.events b) with
  | Some callbacks => callbacks
  | None => []
  end.

(** A file passes the per-file checks of the batch path. *)
Definition batchFileValid (file : File) : bool :=
  AudioTranslateUtils.isValid
    (AudioTranslateUtils.validateFile file
       FileUploadManager.allowedAudioTypes (50 * 1024 * 1024)).

(** The list item the batch path writes for a file. *)
Definition batchItem (file : File) : FileUploadManager.FileListItem :=
  if batchFileValid file then
    FileUploadManager.ItemAccepted (name file)
      (AudioTranslateUtils.formatFileSize (size file))
  else
    FileUploadManager.ItemRejected (name file)
      (AudioTranslateUtils.join ", "
         (AudioTranslateUtils.errors
            (AudioTranslateUtils.validateFile file
               FileUploadManager.allowedAudioTypes (50 * 1024 * 1024)))).

(** The sizes of the files of a selection, added up. *)
Definition sumSizes (files : list File) : N :=
  fold_right (fun file acc => (size file + acc)%N) 0%N files.

(** The timer of the transcription simulation fires once per draw. *)
Definition transcriptionTicks (rs : list Q) (p : TranscriptionManager.Page)
    : TranscriptionManager.Page :=
  fold_left (fun q r => TranscriptionManager.tick r q) rs p.

(** What can happen to the translation manager, one event at a time. *)
Inductive TranslationEvent : Type :=
| PickFiles (fs : list File)
| ClickLanguage (i : nat)
| ClearSelection
| StartTranslation
| TranslationTick (r : Q)
| ClickDownload (i j : nat)
| TranslationTimer.

Definition translationStep (p : TranslationManager.Page)
    (e : TranslationEvent) : TranslationManager.Page :=
  match e with
  | PickFiles fs => TranslationManager.selectFiles fs p
  | ClickLanguage i => TranslationManager.clickLanguageOption i p
  | ClearSelection => TranslationManager.clearSelection p
  | StartTranslation => TranslationManager.startTranslation p
  | TranslationTick r => TranslationManager.tick r p
  | ClickDownload i j => TranslationManager.clickDownload i j p
  | TranslationTimer => TranslationManager.fireTimer p
  end.

Definition translationRun (es : list TranslationEvent)
    (p : TranslationManager.Page) : TranslationManager.Page :=
  fold_left translationStep es p.

(** Every option of the page carries the class [selected] exactly when
    its code is in the selection. *)
Definition classesInSync (p : TranslationManager.Page) : Prop :=
  forall i o,
    nth_error (TranslationManager.languageOptions p) i = Some o ->
    TranslationManager.selectedClass o
    = JsSet.has (TranslationManager.dataLang o)
        (TranslationManager.selectedLanguages p).

(** The draws of the timer events of a batch are draws of
    [Math.random()]. *)
Definition batchEventInRange (e : BatchProcessingManager.Event) : Prop :=
  match e with
  | BatchProcessingManager.Tick r => isDraw r
  | _ => True
  end.

(** ** The batch tab of the page

    The change listener of the file input (the upload manager's
    [handleBatchFileSelection], which sets the process button), the
    click listener of the process button (a disabled button receives no
    click) and the timers, on the page of the batch manager. *)








(** * Properties *)

(** ** Progress of a single job *)

Section JobProgress.

Local Open Scope Q_scope.

Lemma intervalBody_resolved delta progress :
  100 <= progress + delta ->
  intervalBody delta progress = (100, true).
Proof.
  intros H. unfold intervalBody.
  apply Qle_bool_iff in H. now rewrite H.
Qed.

Lemma intervalBody_running delta progress :
  progress + delta < 100 ->
  intervalBody delta progress = (progress + delta, false).
Proof.
  intros H. unfold intervalBody.
  destruct (Qle_bool 100 (progress + delta)) eqn:E; [|reflexivity].
  apply Qle_bool_iff in E. lra.
Qed.

Lemma receive_completed j delta :
  jobStatus j = Completed -> receive j delta = j.
Proof. intros H. unfold receive. now rewrite H. Qed.

Lemma runJob_completed deltas :
  forall j, jobStatus j = Completed -> runJob j deltas = j.
Proof.
  induction deltas as [|d ds IH]; intros j H; [reflexivity|].
  cbn. rewrite receive_completed by assumption. now apply IH.
Qed.

Lemma total_cons d ds : total (d :: ds) = d + total ds.
Proof. reflexivity. Qed.

Lemma total_nonneg deltas :
  Forall (fun d => 0 <= d) deltas -> 0 <= total deltas.
Proof.
  induction 1 as [|d ds Hd _ IH]; [cbn; lra|].
  rewrite total_cons. lra.
Qed.

(** A running job below 100 that receives non-negative increments is
    completed exactly when its total reaches 100, shows 100 once
    completed and the exact total until then. *)
Lemma runJob_running deltas :
  Forall (fun d => 0 <= d) deltas ->
  forall j,
    jobStatus j = Running -> progressPercent j < 100 ->
    let j' := runJob j deltas in
    (jobStatus j' = Completed <-> 100 <= progressPercent j + total deltas)
    /\ (jobStatus j' = Completed -> progressPercent j' = 100)
    /\ (jobStatus j' = Running ->
        progressPercent j' == progressPercent j + total deltas).
Proof.
  induction 1 as [|d ds Hd Hds IH]; intros j Hrun Hlt; cbn zeta.
  - cbn. rewrite Hrun. repeat split; try discriminate; intros; lra.
  - pose proof (total_nonneg ds Hds) as Hnn.
    change (runJob j (d :: ds)) with (runJob (receive j d) ds).
    rewrite total_cons.
    unfold receive. rewrite Hrun.
    destruct (Qlt_le_dec (progressPercent j + d) 100) as [Hlo|Hhi].
    + rewrite intervalBody_running by assumption.
      specialize (IH (mkJob Running (progressPercent j + d))
                    eq_refl Hlo).
      cbn zeta in IH. cbn [progressPercent] in IH.
      destruct IH as (IH1 & IH2 & IH3).
      repeat split.
      * intros Hc. apply IH1 in Hc. lra.
      * intros Hc. apply IH1. lra.
      * exact IH2.
      * intros Hr. rewrite (IH3 Hr). lra.
    + rewrite intervalBody_resolved by assumption.
      rewrite runJob_completed by reflexivity. cbn.
      repeat split; try discriminate; intros; lra.
Qed.

Lemma receive_monotone j delta :
  0 <= delta -> progressPercent j <= 100 ->
  progressPercent j <= progressPercent (receive j delta).
Proof.
  intros Hd Hle. unfold receive.
  destruct (jobStatus j); [|lra].
  destruct (Qlt_le_dec (progressPercent j + delta) 100) as [Hlo|Hhi].
  - rewrite intervalBody_running by assumption. cbn. lra.
  - rewrite intervalBody_resolved by assumption. cbn. lra.
Qed.

Lemma firstn_succ {A} (l : list A) :
  forall k,
    firstn (S k) l = firstn k l
    \/ exists x, In x l /\ firstn (S k) l = firstn k l ++ [x].
Proof.
  induction l as [|a l IH]; intros k.
  - left. now rewrite !firstn_nil.
  - destruct k as [|k].
    + right. exists a. split; [now left|reflexivity].
    + destruct (IH k) as [E|(x & Hin & E)].
      * left. cbn [firstn] in *. now rewrite E.
      * right. exists x. split; [now right|].
        cbn [firstn] in *. now rewrite E.
Qed.

Lemma Forall_firstn {A} (P : A -> Prop) (l : list A) k :
  Forall P l -> Forall P (firstn k l).
Proof.
  intros H. revert k.
  induction H as [|x l Hx _ IH]; intros [|k]; cbn; auto.
Qed.

(** C3. For a running job and every finite sequence of non-negative
    increments, at every point [k] of the sequence: the progress does
    not decrease with the next increment; the job is completed exactly
    when the running total of the increments received so far has
    reached 100; a completed job shows exactly 100 (the excess of the
    completing increment is dropped); and until then the progress is
    the running total itself. *)
Theorem progress_monotone_and_clamped (deltas : list Q) :
  Forall (fun d => 0 <= d) deltas ->
  forall k : nat,
    let before := runJob startedJob (firstn k deltas) in
    let after := runJob startedJob (firstn (S k) deltas) in
    progressPercent before <= progressPercent after
    /\ (jobStatus before = Completed <-> 100 <= total (firstn k deltas))
    /\ (jobStatus before = Completed -> progressPercent before = 100)
    /\ (jobStatus before = Running ->
        progressPercent before == total (firstn k deltas)).
Proof.
  intros Hnn k before after.
  pose proof (runJob_running (firstn k deltas)
                (Forall_firstn _ _ k Hnn) startedJob eq_refl) as Hrun.
  assert (H0 : progressPercent startedJob < 100) by (cbn; lra).
  specialize (Hrun H0). cbn zeta in Hrun. fold before in Hrun.
  change (progressPercent startedJob) with 0 in Hrun.
  destruct Hrun as (H1 & H2 & H3).
  assert (Hle : progressPercent before <= 100).
  { destruct (jobStatus before) eqn:E.
    - rewrite (H3 eq_refl).
      destruct (Qlt_le_dec (0 + total (firstn k deltas)) 100) as [?|Hhi];
        [lra|].
      apply H1 in Hhi. discriminate.
    - rewrite (H2 eq_refl). lra. }
  repeat split.
  - subst after. destruct (firstn_succ deltas k) as [E|(x & Hin & E)];
      rewrite E.
    + fold before. lra.
    + unfold runJob. rewrite fold_left_app. cbn [fold_left].
      fold (runJob startedJob (firstn k deltas)). fold before.
      apply receive_monotone; [|assumption].
      rewrite Forall_forall in Hnn. now apply Hnn.
  - intros Hc. apply H1 in Hc. lra.
  - intros Hc. apply H1. lra.
  - exact H2.
  - intros Hr. rewrite (H3 Hr). lra.
Qed.

(** A run of twelve increments of 9: completed at the twelfth. *)
Lemma progress_monotone_and_clamped_witness :
  let deltas := repeat 9 12 in
  let before := runJob startedJob (firstn 12 deltas) in
  let after := runJob startedJob (firstn 13 deltas) in
  progressPercent before <= progressPercent after
  /\ (jobStatus before = Completed <-> 100 <= total (firstn 12 deltas))
  /\ (jobStatus before = Completed -> progressPercent before = 100)
  /\ (jobStatus before = Running ->
      progressPercent before == total (firstn 12 deltas)).
Proof.
  apply (progress_monotone_and_clamped (repeat 9 12)).
  repeat constructor; discriminate.
Defined.

(** The timer of the translation manager drives such a job with the
    increments [Math.random() * 10]: the bar shows the job's progress,
    and the manager stops processing when the job completes. *)
Lemma translation_tick_job (p : TranslationManager.Page) r progress :
  TranslationManager.interval p = Some progress ->
  let j := receive (mkJob Running progress) (r * 10) in
  let p' := TranslationManager.tick r p in
  barWidth (TranslationManager.progressView p') = progressPercent j
  /\ match jobStatus j with
     | Running =>
         TranslationManager.interval p' = Some (progressPercent j)
         /\ TranslationManager.isProcessing p'
            = TranslationManager.isProcessing p
     | Completed =>
         TranslationManager.interval p' = None
         /\ TranslationManager.isProcessing p' = false
         /\ TranslationManager.resultsShown p' = true
     end.
Proof.
  intros Hi. unfold TranslationManager.tick, receive. rewrite Hi.
  cbn [jobStatus progressPercent].
  destruct (intervalBody (r * 10) progress) as [q [|]]; cbn; auto.
Qed.

(** The same for the transcription manager, with the increments
    [Math.random() * 15]. *)
Lemma transcription_tick_job (p : TranscriptionManager.Page) r progress :
  TranscriptionManager.interval p = Some progress ->
  let j := receive (mkJob Running progress) (r * 15) in
  let p' := TranscriptionManager.tick r p in
  barWidth (TranscriptionManager.progressView p') = progressPercent j
  /\ match jobStatus j with
     | Running =>
         TranscriptionManager.interval p' = Some (progressPercent j)
         /\ TranscriptionManager.isProcessing p'
            = TranscriptionManager.isProcessing p
     | Completed =>
         TranscriptionManager.interval p' = None
         /\ TranscriptionManager.isProcessing p' = false
         /\ TranscriptionManager.resultsShown p' = true
     end.
Proof.
  intros Hi. unfold TranscriptionManager.tick, receive. rewrite Hi.
  cbn [jobStatus progressPercent].
  destruct (intervalBody (r * 15) progress) as [q [|]]; cbn; auto.
Qed.

End JobProgress.

(** ** The batch run *)

Section BatchRun.
Import BatchProcessingManager.
Local Open Scope Q_scope.

Lemma inject_Z_bounds (m : Z) :
  (1 <= m <= 10)%Z -> 1 <= inject_Z m /\ inject_Z m <= 10.
Proof.
  intros H. split;
    [change 1 with (inject_Z 1) | change 10 with (inject_Z 10)];
    rewrite <- Zle_Qle; lia.
Qed.

Lemma progressPerFile_bounds (m : Z) :
  (1 <= m <= 10)%Z -> 10 <= 100 / inject_Z m /\ 100 / inject_Z m <= 100.
Proof.
  intros H. destruct (inject_Z_bounds m H) as [H1 H2].
  assert (Hpos : 0 < inject_Z m) by lra.
  split.
  - apply Qle_shift_div_l; [assumption|lra].
  - apply Qle_shift_div_r; [assumption|lra].
Qed.

(** The share of the current file: a draw times 20 hundredths of the
    per-file share stays below 20. *)
Lemma share_below_20 (r ppf : Q) :
  isDraw r -> 10 <= ppf -> ppf <= 100 ->
  0 <= 0 * ppf + r * 20 * ppf / 100 /\ 0 * ppf + r * 20 * ppf / 100 < 20.
Proof.
  intros [Hr0 Hr1] Hlo Hhi.
  assert (E : 0 * ppf + r * 20 * ppf / 100 == r * ppf * (1 # 5)) by field.
  rewrite E.
  assert (0 <= r * ppf) by nra.
  assert (r * ppf < 100) by nra.
  split; lra.
Qed.

Lemma simulateBatchProcess_onFirstFile (fileCount : Z) :
  (1 <= fileCount)%Z -> onFirstFile (simulateBatchProcess fileCount).
Proof.
  intros H. unfold onFirstFile, simulateBatchProcess. cbn.
  repeat split; try lia; lra.
Qed.

(** Whatever the draw, the callback leaves the pointer on the first
    file and does not resolve the promise. *)
Lemma intervalCallback_onFirstFile (r : Q) (s : Simulation) :
  isDraw r -> onFirstFile s ->
  let s' := fst (intervalCallback r s) in
  snd (intervalCallback r s) = false
  /\ onFirstFile s'
  /\ filesProcessed s' = filesProcessed s
  /\ progress s'
     = inject_Z (currentFile s) * progressPerFile s
       + r * 20 * progressPerFile s / 100.
Proof.
  intros Hr (Hcf & Hm & Hppf & Hp).
  destruct (progressPerFile_bounds _ Hm) as [Hlo Hhi].
  rewrite <- Hppf in Hlo, Hhi.
  pose proof (share_below_20 r (progressPerFile s) Hr Hlo Hhi) as Hshare.
  unfold intervalCallback. rewrite Hcf. change (inject_Z 0) with 0.
  assert (E1 : Qle_bool 100
                 (0 * progressPerFile s + r * 20 * progressPerFile s / 100)
               = false).
  { destruct (Qle_bool 100 _) eqn:E; [|reflexivity].
    apply Qle_bool_iff in E. lra. }
  assert (E2 : Qle_bool 95 (r * 20) = false).
  { destruct (Qle_bool 95 _) eqn:E; [|reflexivity].
    apply Qle_bool_iff in E. destruct Hr. lra. }
  rewrite E1, E2. unfold onFirstFile. cbn.
  repeat split; try assumption; try lia; lra.
Qed.

Lemma tick_onFirstFile (r : Q) (p : Page) (s : Simulation) :
  isDraw r -> interval p = Some s -> onFirstFile s ->
  let p' := tick r p in
  let s' := fst (intervalCallback r s) in
  interval p' = Some s'
  /\ barWidth (progressView p') = progress s'
  /\ isProcessing p' = isProcessing p
  /\ resultsShown p' = resultsShown p
  /\ log p' = log p
  /\ files p' = files p.
Proof.
  intros Hr Hi Hs.
  destruct (intervalCallback_onFirstFile r s Hr Hs) as (Hres & _).
  unfold tick. rewrite Hi.
  destruct (intervalCallback r s) as [s' resolved].
  cbn in Hres. subst resolved. cbn. repeat split; reflexivity.
Qed.

Lemma batchTicks_onFirstFile (rs : list Q) :
  Forall isDraw rs ->
  forall (p : Page) (s : Simulation),
    interval p = Some s -> onFirstFile s ->
    let p' := batchTicks rs p in
    isProcessing p' = isProcessing p
    /\ resultsShown p' = resultsShown p
    /\ log p' = log p
    /\ files p' = files p
    /\ exists s',
         interval p' = Some s' /\ onFirstFile s'
         /\ filesProcessed s' = filesProcessed s.
Proof.
  induction 1 as [|r rs Hr _ IH]; intros p s Hi Hs.
  - cbn. repeat (split; [reflexivity|]). exists s. auto.
  - destruct (tick_onFirstFile r p s Hr Hi Hs)
      as (Hi' & _ & Hproc & Hshown & Hlog & Hfiles).
    destruct (intervalCallback_onFirstFile r s Hr Hs)
      as (_ & Hs' & Hm & _).
    specialize (IH (tick r p) _ Hi' Hs').
    change (batchTicks (r :: rs) p) with (batchTicks rs (tick r p)).
    cbn zeta in *.
    destruct IH as (IH1 & IH2 & IH3 & IH4 & s'' & IH5 & IH6 & IH7).
    split; [congruence|]. split; [congruence|].
    split; [congruence|]. split; [congruence|].
    exists s''. split; [assumption|]. split; [assumption|congruence].
Qed.

Lemma processBatch_started (p : Page) :
  isProcessing p = false -> files p <> [] ->
  let p' := processBatch p in
  isProcessing p' = true
  /\ resultsShown p' = resultsShown p
  /\ log p' = log p
  /\ files p' = files p
  /\ interval p'
     = Some (simulateBatchProcess (Z.of_nat (List.length (files p)))).
Proof.
  intros Hproc Hfiles. unfold processBatch. rewrite Hproc.
  destruct (files p) as [|f fs] eqn:E; [congruence|].
  cbn. repeat split; reflexivity.
Qed.

Lemma fileItems_length fs : forall index operation,
  List.length (fileItems fs index operation) = List.length fs.
Proof.
  induction fs as [|f fs IH]; intros; cbn; [reflexivity|].
  now rewrite IH.
Qed.



(** C1 (what the code does). A batch run over a non-empty selection
    never ends: however the draws of [Math.random()] fall and however
    often the timer fires, the file pointer is still on the first file,
    the progress is below 20, nothing was reported, and [isProcessing]
    is still true.  The threshold of 95 is compared with a file
    progress of [Math.random() * 20], which it cannot reach. *)
Theorem batch_run_never_finishes (p : Page) (rs : list Q) :
  isProcessing p = false -> files p <> [] -> Forall isDraw rs ->
  let p' := batchTicks rs (processBatch p) in
  isProcessing p' = true
  /\ resultsShown p' = resultsShown p
  /\ log p' = log p
  /\ exists s,
       interval p' = Some s /\ currentFile s = 0%Z /\ progress s < 20.
Proof.
  intros Hproc Hfiles Hrs.
  destruct (processBatch_started p Hproc Hfiles)
    as (H1 & H2 & H3 & H4 & H5).
  assert (Hn : (1 <= Z.of_nat (List.length (files p)))%Z).
  { destruct (files p); [congruence|cbn [List.length]; lia]. }
  destruct (batchTicks_onFirstFile rs Hrs (processBatch p) _ H5
              (simulateBatchProcess_onFirstFile _ Hn))
    as (T1 & T2 & T3 & _ & s & T5 & T6 & _).
  cbn zeta.
  split; [congruence|]. split; [congruence|]. split; [congruence|].
  exists s. split; [assumption|].
  destruct T6 as (Hcf & _ & _ & _ & Hlt). auto.
Qed.

(** A one-file batch whose draws are all 0.99, after three ticks. *)
Lemma batch_run_never_finishes_witness :
  let p := selectFiles [mkFile "a.mp3" 1000 "audio/mpeg"] false
             constructor in
  let p' := batchTicks [99 # 100; 99 # 100; 99 # 100] (processBatch p) in
  isProcessing p' = true
  /\ resultsShown p' = resultsShown p
  /\ log p' = log p
  /\ exists s,
       interval p' = Some s /\ currentFile s = 0%Z /\ progress s < 20.
Proof.
  apply (batch_run_never_finishes
           (selectFiles [mkFile "a.mp3" 1000 "audio/mpeg"] false
              constructor)
           [99 # 100; 99 # 100; 99 # 100]).
  - reflexivity.
  - discriminate.
  - repeat constructor; discriminate.
Defined.

End BatchRun.

(** ** Validation *)

Section Validation.
Import AudioTranslateUtils.

Example formatFileSize_zero : formatFileSize 0 = "0 Bytes".
Proof. reflexivity. Qed.

Example formatFileSize_bytes : formatFileSize 1023 = "1023 Bytes".
Proof. vm_compute. reflexivity. Qed.

Example formatFileSize_half : formatFileSize 1536 = "1.5 KB".
Proof. vm_compute. reflexivity. Qed.

Example formatFileSize_hundredths : formatFileSize 1080 = "1.05 KB".
Proof. vm_compute. reflexivity. Qed.

Example formatFileSize_batch_ceiling :
  formatFileSize (50 * 1024 * 1024) = "50 MB".
Proof. vm_compute. reflexivity. Qed.

Example formatFileSize_past_the_table :
  formatFileSize (1024 ^ 4) = "1 undefined".
Proof. vm_compute. reflexivity. Qed.

Lemma k_pow (i : N) : (k ^ i = 2 ^ (10 * i))%N.
Proof.
  unfold k. change 1024%N with (2 ^ 10)%N.
  now rewrite N.pow_mul_r.
Qed.

(** The unit of a size is the largest power of 1024 that does not
    exceed it. *)
Lemma unitIndex_spec (bytes : N) :
  (0 < bytes)%N ->
  (k ^ unitIndex bytes <= bytes < k ^ (unitIndex bytes + 1))%N.
Proof.
  intros Hpos. unfold unitIndex.
  destruct (N.log2_spec bytes Hpos) as [Hlo Hhi].
  rewrite !k_pow.
  assert (H10 : (10 * (N.log2 bytes / 10) <= N.log2 bytes)%N)
    by (apply N.Div0.mul_div_le).
  assert (H11 : (N.succ (N.log2 bytes) <= 10 * (N.log2 bytes / 10 + 1))%N).
  { assert (H : (N.log2 bytes < 10 * N.succ (N.log2 bytes / 10))%N)
      by (apply N.mul_succ_div_gt; discriminate).
    lia. }
  split.
  - eapply N.le_trans; [|exact Hlo].
    apply N.pow_le_mono_r; [discriminate|assumption].
  - eapply N.lt_le_trans; [exact Hhi|].
    apply N.pow_le_mono_r; [discriminate|assumption].
Qed.

(** [toFixed2] is the nearest count of hundredths, ties upwards. *)
Lemma toFixed2_nearest (num den : N) :
  (0 < den)%N ->
  (2 * den * toFixed2 num den <= 200 * num + den
   < 2 * den * (toFixed2 num den + 1))%N.
Proof.
  intros Hden. unfold toFixed2.
  pose proof (N.Div0.mul_div_le (200 * num + den) (2 * den)) as H1.
  assert (H2 : (200 * num + den
                < 2 * den * N.succ ((200 * num + den) / (2 * den)))%N)
    by (apply N.mul_succ_div_gt; lia).
  rewrite N.add_1_r. split; assumption.
Qed.

Lemma In_snoc {A} (x : A) (l : list A) : In x (l ++ [x]).
Proof. apply in_or_app. right. now left. Qed.

(** C5 (amended). A file whose size strictly exceeds the maximum is
    invalid, and its errors include "File too large. Maximum size: "
    followed by the formatted maximum: the maximum in the largest unit
    of base 1024 that does not exceed it, rounded to the nearest
    hundredth and printed as a number, that is without trailing zeros.
    A 120MB file against the 100MB ceiling (104,857,600 bytes) yields
    "File too large. Maximum size: 100 MB". *)
Theorem oversized_file_is_rejected (file : File)
    (allowedTypes : list string) (maxSize : N) :
  (maxSize < size file)%N ->
  let result := validateFile file allowedTypes maxSize in
  isValid result = false
  /\ In ("File too large. Maximum size: " ++ formatFileSize maxSize)%string
       (errors result)
  /\ ((0 < maxSize)%N ->
      exists i h : N,
        formatFileSize maxSize
        = (hundredthsToString h ++ " " ++ sizeLabel i)%string
        /\ (k ^ i <= maxSize < k ^ (i + 1))%N
        /\ (2 * k ^ i * h <= 200 * maxSize + k ^ i
            < 2 * k ^ i * (h + 1))%N)
  /\ (size file = 125829120%N -> maxSize = 104857600%N ->
      In "File too large. Maximum size: 100 MB" (errors result)).
Proof.
  intros Hbig result.
  assert (Hin : In (sizeError maxSize) (errors result)).
  { subst result. unfold validateFile.
    apply N.ltb_lt in Hbig. rewrite Hbig. cbn [errors].
    apply In_snoc. }
  split; [|split; [|split]].
  - subst result. unfold validateFile.
    apply N.ltb_lt in Hbig. rewrite Hbig. cbn [isValid].
    rewrite length_app. cbn [List.length].
    rewrite Nat.add_comm. reflexivity.
  - exact Hin.
  - intros Hpos.
    exists (unitIndex maxSize), (toFixed2 maxSize (k ^ unitIndex maxSize)).
    split; [|split].
    + unfold formatFileSize.
      destruct (N.eqb_spec maxSize 0) as [E|_]; [lia|reflexivity].
    + now apply unitIndex_spec.
    + apply toFixed2_nearest.
      destruct (unitIndex_spec maxSize Hpos) as [Hlo _].
      assert (0 < k ^ unitIndex maxSize)%N; [|assumption].
      apply N.neq_0_lt_0, N.pow_nonzero. discriminate.
  - intros _ Hmax. subst maxSize. exact Hin.
Qed.

(** The 120MB file of the example against the 100MB ceiling. *)
Lemma oversized_file_is_rejected_witness :
  let file := mkFile "talk.mp3" 125829120 "audio/mpeg" in
  let result :=
    validateFile file FileUploadManager.allowedAudioTypes 104857600 in
  isValid result = false
  /\ In ("File too large. Maximum size: " ++ formatFileSize 104857600)%string
       (errors result)
  /\ ((0 < 104857600)%N ->
      exists i h : N,
        formatFileSize 104857600
        = (hundredthsToString h ++ " " ++ sizeLabel i)%string
        /\ (k ^ i <= 104857600 < k ^ (i + 1))%N
        /\ (2 * k ^ i * h <= 200 * 104857600 + k ^ i
            < 2 * k ^ i * (h + 1))%N)
  /\ (125829120%N = 125829120%N -> 104857600%N = 104857600%N ->
      In "File too large. Maximum size: 100 MB" (errors result)).
Proof.
  apply (oversized_file_is_rejected
           (mkFile "talk.mp3" 125829120 "audio/mpeg")
           FileUploadManager.allowedAudioTypes 104857600).
  reflexivity.
Defined.

(** C5 as stated fails on its own example: the 100MB ceiling is printed
    as "100 MB", and no error reads "... 100.00 MB". *)
Lemma oversized_message_drops_zeros :
  let file := mkFile "talk.mp3" (120 * 1024 * 1024) "audio/mpeg" in
  let result :=
    validateFile file FileUploadManager.allowedAudioTypes
      (100 * 1024 * 1024) in
  isValid result = false
  /\ errors result = ["File too large. Maximum size: 100 MB"]
  /\ ~ In "File too large. Maximum size: 100.00 MB" (errors result).
Proof.
  cbv zeta. split; [reflexivity|]. split; [reflexivity|].
  vm_compute. intros [H|[]]. discriminate.
Qed.

Import FileUploadManager.

(** Whatever is selected, the batch path sends the notifier nothing
    but its success message, and that only for a selection without
    errors. *)
Lemma handleBatchFileSelection_log (files : list File) (a : BatchArea) :
  let a' := handleBatchFileSelection files a in
  batchLog a' = batchLog a
  \/ (batchLog a'
      = batchLog a
          ++ [mkNotification
                (N_toString (N.of_nat (List.length files))
                   ++ " files uploaded successfully!") "success"]
      /\ processBtn a' = setDisabled false (processBtn a)).
Proof.
  unfold handleBatchFileSelection.
  destruct (0 <? List.length files)%nat eqn:Hlen; [|now left].
  cbn zeta.
  destruct (hasErrors _ || _ || _) eqn:E; cbn; [now left|].
  right. split; [reflexivity|].
  destruct (List.length files); [discriminate|reflexivity].
Qed.

(** C6 (what the code does). A file of an unsupported type is reported
    to the notifier by the single-file path, with the error text, but
    not by the batch path: there the error only appears in the file
    list and the process button is disabled, and the notifier receives
    nothing.  A selection of eleven valid files is equally silent about
    the count ceiling. *)
Theorem batch_validation_failure_is_silent :
  let file := mkFile "notes.txt" 1 "text/plain" in
  let text :=
    ("File type not supported. Allowed types: "
       ++ "audio/mpeg, audio/wav, audio/m4a, audio/ogg")%string in
  let single :=
    handleFileSelection [file]
      (mkUploadArea None (Some (mkButton true "Transcribe Audio")) []) in
  let batch :=
    handleBatchFileSelection [file]
      (mkBatchArea None (Some (mkButton true "Process Files")) []) in
  let eleven :=
    handleBatchFileSelection (repeat (mkFile "a.mp3" 1000 "audio/mpeg") 11)
      (mkBatchArea None (Some (mkButton true "Process Files")) []) in
  log single = [mkNotification text "error"]
  /\ batchLog batch = []
  /\ fileList batch
     = Some (mkFileListView [ItemRejected "notes.txt" text] [])
  /\ processBtn batch = Some (mkButton true "Process Files")
  /\ batchLog eleven = []
  /\ option_map notes (fileList eleven) = Some ["Maximum 10 files allowed"]
  /\ processBtn eleven = Some (mkButton true "Process Files").
Proof. cbv zeta. repeat split; reflexivity. Qed.

End Validation.

(** ** Language selection *)

Section LanguageSelection.
Import TranslationManager.

Lemma has_In (x : string) (s : JsSet.t) :
  JsSet.has x s = true <-> In x s.
Proof.
  unfold JsSet.has. rewrite existsb_exists. split.
  - intros (y & Hy & E). apply String.eqb_eq in E. now subst.
  - intros H. exists x. split; [assumption|apply String.eqb_refl].
Qed.

Lemma has_add (x c : string) (s : JsSet.t) :
  JsSet.has x (JsSet.add c s) = JsSet.has x s || String.eqb x c.
Proof.
  unfold JsSet.add. destruct (JsSet.has c s) eqn:E.
  - destruct (String.eqb_spec x c) as [->|_].
    + rewrite E. reflexivity.
    + now rewrite orb_false_r.
  - unfold JsSet.has. rewrite existsb_app. cbn.
    now rewrite orb_false_r.
Qed.

Lemma has_delete (x c : string) (s : JsSet.t) :
  JsSet.has x (JsSet.delete c s)
  = JsSet.has x s && negb (String.eqb c x).
Proof.
  unfold JsSet.has, JsSet.delete.
  induction s as [|y s IH]; [reflexivity|].
  cbn. destruct (String.eqb_spec c y) as [->|Hcy]; cbn.
  - rewrite IH. destruct (String.eqb_spec x y) as [->|Hxy]; cbn.
    + rewrite String.eqb_refl. cbn. now rewrite andb_false_r.
    + reflexivity.
  - rewrite IH. destruct (String.eqb_spec x y) as [->|Hxy]; cbn.
    + destruct (String.eqb_spec c y); [contradiction|reflexivity].
    + reflexivity.
Qed.

(** Membership after a toggle: flipped for the toggled code, kept for
    every other code. *)
Lemma has_toggle (x c : string) (s : JsSet.t) :
  JsSet.has x (toggle c s)
  = if String.eqb c x then negb (JsSet.has c s) else JsSet.has x s.
Proof.
  unfold toggle. destruct (JsSet.has c s) eqn:E.
  - rewrite has_delete.
    destruct (String.eqb_spec c x) as [<-|_]; cbn.
    + now rewrite andb_false_r.
    + now rewrite andb_true_r.
  - rewrite has_add. rewrite String.eqb_sym.
    destruct (String.eqb_spec c x) as [<-|_]; cbn.
    + now rewrite orb_true_r.
    + now rewrite orb_false_r.
Qed.

Lemma NoDup_toggle (c : string) (s : JsSet.t) :
  NoDup s -> NoDup (toggle c s).
Proof.
  intros H. unfold toggle. destruct (JsSet.has c s) eqn:E.
  - now apply NoDup_filter.
  - unfold JsSet.add. rewrite E. apply NoDup_app.
    + assumption.
    + repeat constructor. intros [].
    + intros a Ha [<-|[]]. apply has_In in Ha. congruence.
Qed.

Lemma NoDup_selectionAfter (clicks : list string) :
  NoDup (selectionAfter clicks).
Proof.
  unfold selectionAfter.
  assert (G : forall s, NoDup s ->
              NoDup (fold_left (fun s lang => toggle lang s) clicks s)).
  { induction clicks as [|c cs IH]; intros s Hs; [assumption|].
    cbn. apply IH. now apply NoDup_toggle. }
  apply G. constructor.
Qed.

(** A click on a language option toggles its code in the selection. *)
Lemma clickLanguageOption_selection (i : nat) (p : Page) o :
  nth_error (languageOptions p) i = Some o ->
  selectedLanguages (clickLanguageOption i p)
  = toggle (dataLang o) (selectedLanguages p).
Proof.
  intros H. unfold clickLanguageOption. rewrite H. reflexivity.
Qed.

(** C9. In every state of the language selection and for every code:
    the selection holds no code twice; a toggle flips the membership of
    the code (a present code is removed, an absent one added) and keeps
    the codes distinct; and two toggles in succession restore the
    membership of the code, and of every other code. *)
Theorem toggle_involution (clicks : list string) (c : string) :
  let s := selectionAfter clicks in
  NoDup s
  /\ JsSet.has c (toggle c s) = negb (JsSet.has c s)
  /\ NoDup (toggle c s)
  /\ JsSet.has c (toggle c (toggle c s)) = JsSet.has c s
  /\ forall x, JsSet.has x (toggle c (toggle c s)) = JsSet.has x s.
Proof.
  intros s.
  pose proof (NoDup_selectionAfter clicks) as Hs. fold s in Hs.
  assert (Htwice : forall x,
             JsSet.has x (toggle c (toggle c s)) = JsSet.has x s).
  { intros x. rewrite !has_toggle. rewrite String.eqb_refl.
    destruct (String.eqb_spec c x) as [<-|_]; [|reflexivity].
    now rewrite negb_involutive. }
  split; [assumption|]. split.
  { rewrite has_toggle. now rewrite String.eqb_refl. }
  split; [now apply NoDup_toggle|]. split; [apply Htwice|exact Htwice].
Qed.

End LanguageSelection.

(** ** Output artifacts *)

Section Artifacts.
Import TranslationManager.

(** When the loop over the languages ends normally, it has appended one
    block per language, in order, each the block of its language. *)
Lemma appendOutputs_ok (langs : list string) :
  forall html,
    snd (appendOutputs langs html) = true ->
    exists blocks,
      fst (appendOutputs langs html) = html ++ blocks
      /\ Forall2 blockOf langs blocks.
Proof.
  induction langs as [|lang rest IH]; intros html H; cbn in *.
  - exists []. rewrite app_nil_r. split; constructor.
  - destruct (createTranslationOutput (getLanguageData lang)) as [block|]
      eqn:E; [|discriminate].
    destruct (IH _ H) as (blocks & E1 & F).
    exists (block :: blocks). split.
    + rewrite E1, <- app_assoc. reflexivity.
    + constructor; assumption.
Qed.

(** The loop ends normally when a block can be built for every
    language. *)
Lemma appendOutputs_named (langs : list string) :
  forall html,
    Forall (fun lang => languageOf lang <> None) langs ->
    snd (appendOutputs langs html) = true.
Proof.
  induction langs as [|lang rest IH]; intros html H; cbn; [reflexivity|].
  inversion H as [|? ? Hlang Hrest]; subst. unfold languageOf in Hlang.
  destruct (createTranslationOutput (getLanguageData lang));
    [now apply IH|]. now elim Hlang.
Qed.

Lemma buildOutputs_blocks (s : JsSet.t) :
  snd (buildOutputs s) = true -> Forall2 blockOf s (fst (buildOutputs s)).
Proof.
  intros H. destruct (appendOutputs_ok s [] H) as (blocks & E & F).
  unfold buildOutputs. rewrite E. exact F.
Qed.

(** The block of a language: three download buttons, filed under the
    lower-cased name found for the code. *)
Lemma blockOf_inv (lang : string) (block : AudioPlayer) :
  blockOf lang block ->
  exists n,
    name (getLanguageData lang) = Some n
    /\ dataLanguage block = toLowerCase n
    /\ downloadBtns block = ["mp3"; "wav"; "srt"]
    /\ languageOf lang = Some (dataLanguage block).
Proof.
  unfold blockOf, languageOf, createTranslationOutput. intros H.
  destruct (name (getLanguageData lang)) as [n|]; [|discriminate].
  inversion H; subst. exists n. cbn. repeat split; reflexivity.
Qed.

(** The codes of the language table have a name. *)
Lemma table_code_named (lang : string) :
  In lang (map fst languages) -> languageOf lang <> None.
Proof.
  intros H. cbn in H.
  repeat (destruct H as [<-|H]; [discriminate|]). destruct H.
Qed.

Lemma Forall2_nth_error_l {A B : Type} (R : A -> B -> Prop)
    (l : list A) (l' : list B) :
  Forall2 R l l' ->
  forall i x, nth_error l i = Some x ->
  exists y, nth_error l' i = Some y /\ R x y.
Proof.
  induction 1 as [|a b l l' Hab _ IH]; intros i x Hx.
  - destruct i; discriminate.
  - destruct i as [|i]; cbn in *.
    + inversion Hx; subst. eauto.
    + now apply IH.
Qed.

(** The continuation of a finished translation leaves the blocks that
    [showTranslationResults] built. *)
Lemma afterAwait_outputs (p : Page) :
  translationOutputs (afterAwait p)
  = fst (buildOutputs (selectedLanguages p)).
Proof. reflexivity. Qed.

Lemma clickDownload_block (i j : nat) (p : Page) (lang : string)
    (block : AudioPlayer) (format : string) :
  nth_error (translationOutputs p) i = Some block ->
  blockOf lang block ->
  nth_error ["mp3"; "wav"; "srt"] j = Some format ->
  clickDownload i j p
  = handleTranslationDownload (dataLanguage block) format p.
Proof.
  intros Hi Hblock Hj. unfold clickDownload. rewrite Hi.
  destruct (blockOf_inv lang block Hblock) as (n & _ & _ & Hbtns & _).
  rewrite Hbtns, Hj. reflexivity.
Qed.

(** C7 (amended). The name of a download is a function of the finished
    job alone.  For a job that completes (its results are built without
    error), a translation download for the selected code [lang] and the
    format [format] is named [translation_N.format], where [N] is not
    the code but the lower-cased [name] of the language data the manager
    looks up for the code (for a code of the language table, the name
    the table gives it: "german" for "de"); a transcription download is
    named [transcription.format], without a language part; and a
    repeated download announces, and later confirms, the same name
    again. *)
Theorem download_names (p : Page) (i j : nat) (lang n format : string) :
  nth_error (selectedLanguages p) i = Some lang ->
  name (getLanguageData lang) = Some n ->
  snd (showTranslationResults p) = true ->
  nth_error ["mp3"; "wav"; "srt"] j = Some format ->
  let finished := afterAwait p in
  let filename :=
    ("translation_" ++ toLowerCase n ++ "." ++ format)%string in
  let announce :=
    mkNotification ("Downloading " ++ filename ++ "...") "info" in
  let confirm :=
    mkNotification (filename ++ " downloaded successfully!") "success" in
  let once := clickDownload i j finished in
  let twice := clickDownload i j once in
  log once = log finished ++ [announce]
  /\ timers once = timers finished ++ [confirm]
  /\ log twice = log finished ++ [announce; announce]
  /\ timers twice = timers finished ++ [confirm; confirm]
  /\ (forall d, lookup lang languages = Some d -> name d = Some n)
  /\ forall (q : TranscriptionManager.Page) (fmt : string),
       let name1 := ("transcription." ++ fmt)%string in
       let again :=
         TranscriptionManager.handleDownload fmt
           (TranscriptionManager.handleDownload fmt q) in
       TranscriptionManager.log again
       = TranscriptionManager.log q
           ++ [mkNotification ("Downloading " ++ name1 ++ "...") "info";
               mkNotification ("Downloading " ++ name1 ++ "...") "info"]
       /\ TranscriptionManager.timers again
          = TranscriptionManager.timers q
              ++ [mkNotification (name1 ++ " downloaded successfully!")
                    "success";
                  mkNotification (name1 ++ " downloaded successfully!")
                    "success"].
Proof.
  intros Hi Hname Hok Hj finished filename announce confirm once twice.
  pose proof (buildOutputs_blocks (selectedLanguages p) Hok) as Hblocks.
  destruct (Forall2_nth_error_l _ _ _ Hblocks i lang Hi)
    as (block & Hblock & Hof).
  destruct (blockOf_inv lang block Hof) as (n' & Hn' & Hdata & _ & _).
  assert (n' = n) by congruence. subst n'.
  assert (Hplayer : nth_error (translationOutputs finished) i = Some block).
  { subst finished. now rewrite afterAwait_outputs. }
  assert (Honce : once = handleTranslationDownload (toLowerCase n) format
                           finished).
  { subst once. rewrite <- Hdata.
    now apply clickDownload_block with (lang := lang). }
  assert (Htwice : twice = handleTranslationDownload (toLowerCase n)
                             format once).
  { subst twice. rewrite <- Hdata.
    apply clickDownload_block with (lang := lang); [|assumption..].
    rewrite Honce. exact Hplayer. }
  split; [|split; [|split; [|split; [|split]]]].
  - rewrite Honce. reflexivity.
  - rewrite Honce. reflexivity.
  - rewrite Htwice, Honce. cbn.
    unfold AudioTranslateUtils.showNotification.
    now rewrite <- app_assoc.
  - rewrite Htwice, Honce. cbn. now rewrite <- app_assoc.
  - intros d Hd. unfold getLanguageData in Hname. now rewrite Hd in Hname.
  - intros q fmt name1 again. subst again. cbn.
    unfold AudioTranslateUtils.showNotification.
    rewrite <- !app_assoc. split; reflexivity.
Qed.

(** German selected on the page as loaded, the job run to completion,
    the MP3 button clicked. *)
Lemma download_names_witness :
  let p := clickLanguageOption 0 (constructor pageLanguages) in
  let finished := afterAwait p in
  let filename :=
    ("translation_" ++ toLowerCase "German" ++ "." ++ "mp3")%string in
  let announce :=
    mkNotification ("Downloading " ++ filename ++ "...") "info" in
  let confirm :=
    mkNotification (filename ++ " downloaded successfully!") "success" in
  let once := clickDownload 0 0 finished in
  let twice := clickDownload 0 0 once in
  log once = log finished ++ [announce]
  /\ timers once = timers finished ++ [confirm]
  /\ log twice = log finished ++ [announce; announce]
  /\ timers twice = timers finished ++ [confirm; confirm]
  /\ (forall d, lookup "de" languages = Some d -> name d = Some "German")
  /\ forall (q : TranscriptionManager.Page) (fmt : string),
       let name1 := ("transcription." ++ fmt)%string in
       let again :=
         TranscriptionManager.handleDownload fmt
           (TranscriptionManager.handleDownload fmt q) in
       TranscriptionManager.log again
       = TranscriptionManager.log q
           ++ [mkNotification ("Downloading " ++ name1 ++ "...") "info";
               mkNotification ("Downloading " ++ name1 ++ "...") "info"]
       /\ TranscriptionManager.timers again
          = TranscriptionManager.timers q
              ++ [mkNotification (name1 ++ " downloaded successfully!")
                    "success";
                  mkNotification (name1 ++ " downloaded successfully!")
                    "success"].
Proof.
  apply (download_names (clickLanguageOption 0 (constructor pageLanguages))
           0 0 "de" "German" "mp3"); reflexivity.
Defined.

(** C7 as stated fails for German: with "de" selected, a file chosen
    and the simulated job run to completion (twenty draws of 1/2), the
    MP3 download is announced as [translation_german.mp3], not as
    [translation_de.mp3]. *)
Lemma download_name_is_not_the_code :
  let p0 := constructor pageLanguages in
  let p1 := selectFiles [mkFile "talk.mp3" 1000 "audio/mpeg"] p0 in
  let p2 := clickLanguageOption 0 p1 in
  let p3 := translationTicks (repeat (1 # 2)%Q 20) (startTranslation p2) in
  let p4 := clickDownload 0 0 p3 in
  selectedLanguages p3 = ["de"]
  /\ isProcessing p3 = false
  /\ log p4
     = [mkNotification "Translation completed successfully!" "success";
        mkNotification "Downloading translation_german.mp3..." "info"]
  /\ ~ In (mkNotification "Downloading translation_de.mp3..." "info")
         (log p4).
Proof.
  cbv zeta. split; [reflexivity|]. split; [reflexivity|].
  split; [reflexivity|].
  vm_compute. intros [H|[H|[]]]; discriminate.
Qed.

(** Codes outside the language table: an unknown code is filed under
    "unknown"; a code named like an inherited member is filed under the
    lower-cased name of that member; and for ["__proto__"] no block can
    be built, so the run ends in the failure notification with the
    blocks built before it. *)
Example languageOf_outside_the_table :
  languageOf "es" = Some "unknown"
  /\ languageOf "constructor" = Some "object"
  /\ languageOf "toString" = Some "tostring"
  /\ languageOf "__proto__" = None.
Proof. repeat split; reflexivity. Qed.

Example run_with_a_nameless_language :
  let p0 := constructor ["de"; "__proto__"; "fr"] in
  let p1 := selectFiles [mkFile "talk.mp3" 1000 "audio/mpeg"] p0 in
  let p2 := clickLanguageOption 2
              (clickLanguageOption 1 (clickLanguageOption 0 p1)) in
  let p3 := translationTicks (repeat (1 # 2)%Q 20) (startTranslation p2) in
  isProcessing p3 = false
  /\ log p3
     = [mkNotification "Translation failed. Please try again." "error"]
  /\ map dataLanguage (translationOutputs p3) = ["german"].
Proof. repeat split; reflexivity. Qed.

Lemma artifacts_cons (player : AudioPlayer) (rest : list AudioPlayer) :
  artifacts (player :: rest)
  = map (fun f => (dataLanguage player, f)) (downloadBtns player)
      ++ artifacts rest.
Proof. reflexivity. Qed.

Lemma artifacts_language (s : list string) (blocks : list AudioPlayer)
    (language format : string) :
  Forall2 blockOf s blocks ->
  In (language, format) (artifacts blocks) ->
  exists lang, In lang s /\ languageOf lang = Some language.
Proof.
  induction 1 as [|lang block s blocks Hblock _ IH]; intros Hin.
  - destruct Hin.
  - rewrite artifacts_cons in Hin. apply in_app_or in Hin.
    destruct Hin as [Hin|Hin].
    + apply in_map_iff in Hin. destruct Hin as (f & E & _).
      inversion E; subst.
      destruct (blockOf_inv lang block Hblock) as (_ & _ & _ & _ & Hof).
      exists lang. split; [now left|assumption].
    + destruct (IH Hin) as (lang' & Hl & E).
      exists lang'. split; [now right|assumption].
Qed.

(** Distinct codes of the language table have distinct names. *)
Lemma languageOf_injective (l1 l2 : string) :
  In l1 (map fst languages) -> In l2 (map fst languages) ->
  languageOf l1 = languageOf l2 -> l1 = l2.
Proof.
  intros H1 H2 E. cbn in H1, H2.
  repeat (destruct H1 as [<-|H1]); try contradiction;
    repeat (destruct H2 as [<-|H2]); try contradiction;
    try reflexivity; vm_compute in E; discriminate.
Qed.

Lemma artifacts_length (s : list string) (blocks : list AudioPlayer) :
  Forall2 blockOf s blocks ->
  List.length (artifacts blocks) = (List.length s * 3)%nat.
Proof.
  induction 1 as [|lang block s blocks Hblock _ IH]; [reflexivity|].
  destruct (blockOf_inv lang block Hblock) as (_ & _ & _ & Hbtns & _).
  rewrite artifacts_cons, length_app, IH, Hbtns. reflexivity.
Qed.

Lemma artifacts_NoDup (s : list string) (blocks : list AudioPlayer) :
  Forall2 blockOf s blocks ->
  NoDup s ->
  (forall lang, In lang s -> In lang (map fst languages)) ->
  NoDup (artifacts blocks).
Proof.
  induction 1 as [|l block s blocks Hblock Hrest IH];
    intros Hnodup Hknown.
  - constructor.
  - inversion Hnodup as [|? ? Hl Hs]; subst.
    destruct (blockOf_inv l block Hblock) as (_ & _ & _ & Hbtns & Hof).
    assert (Habsent : forall format,
               ~ In (dataLanguage block, format) (artifacts blocks)).
    { intros format Hin.
      destruct (artifacts_language s blocks _ _ Hrest Hin)
        as (l' & Hl' & E).
      rewrite <- Hof in E.
      apply languageOf_injective in E;
        [subst l'; contradiction| |]; apply Hknown; [now right|now left]. }
    assert (IH' : NoDup (artifacts blocks)).
    { apply IH; [assumption|]. intros lang Hin. apply Hknown. now right. }
    rewrite artifacts_cons, Hbtns. cbn [map app].
    repeat constructor; try assumption;
      cbn [In]; intros Hin;
      repeat (destruct Hin as [Hin|Hin]; [discriminate Hin|]);
      exact (Habsent _ Hin).
Qed.

End Artifacts.

(** ** The batch list and the single-flight guard *)

Section BatchList.
Import BatchProcessingManager.

(** No event writes anything but the empty list to [currentBatch]. *)
Lemma step_currentBatch (p : Page) (e : Event) :
  currentBatch p = [] -> currentBatch (step p e) = [].
Proof.
  intros H. destruct e; cbn; try assumption; try reflexivity.
  - unfold processBatch.
    destruct (isProcessing p); [assumption|].
    destruct (List.length (files p) =? 0)%nat; cbn; assumption.
  - unfold tick. destruct (interval p) as [s|]; [|assumption].
    destruct (intervalCallback r s) as [s' [|]]; cbn; assumption.
  - unfold fireTimer. destruct (timers p); cbn; assumption.
Qed.

Lemma run_currentBatch (es : list Event) :
  forall p, currentBatch p = [] -> currentBatch (run es p) = [].
Proof.
  induction es as [|e es IH]; intros p H; [assumption|].
  cbn. apply IH. now apply step_currentBatch.
Qed.

(** C10. After every sequence of events on a batch manager (files and
    operation selected, [processBatch], timer ticks with any draws,
    downloads, [resetBatch], ...) [currentBatch] is empty, and
    [getBatchSummary] reports no files, none processed, none failed and
    a total size of 0. *)
Theorem currentBatch_stays_empty (es : list Event) :
  currentBatch (run es constructor) = []
  /\ getBatchSummary (run es constructor) = mkBatchSummary 0 0 0 0.
Proof.
  pose proof (run_currentBatch es constructor eq_refl) as H.
  split; [assumption|].
  unfold getBatchSummary. rewrite H. reflexivity.
Qed.

End BatchList.

Section SingleFlight.

(** C2. For each of the three managers, a start call while
    [isProcessing] is true changes nothing: the manager's whole state
    (its running interval, its pending timers, its results, its
    notifications, its buttons) is what it was. *)
Theorem second_start_is_a_no_op (m : Manager) :
  managerIsProcessing m = true -> start m = m.
Proof.
  destruct m as [p|p|p]; cbn; intros H.
  - unfold BatchProcessingManager.processBatch. now rewrite H.
  - unfold TranslationManager.startTranslation. now rewrite H.
  - unfold TranscriptionManager.startTranscription. now rewrite H.
Qed.

(** A batch of two files, started, two ticks in: a second
    [processBatch] leaves it as it is. *)
Lemma second_start_is_a_no_op_witness :
  let running :=
    batchTicks [(1 # 3)%Q; (2 # 3)%Q]
      (BatchProcessingManager.processBatch
         (BatchProcessingManager.selectFiles
            [mkFile "a.mp3" 1000 "audio/mpeg";
             mkFile "b.wav" 2000 "audio/wav"] false
            BatchProcessingManager.constructor)) in
  start (Batch running) = Batch running.
Proof.
  apply (second_start_is_a_no_op
           (Batch
              (batchTicks [(1 # 3)%Q; (2 # 3)%Q]
                 (BatchProcessingManager.processBatch
                    (BatchProcessingManager.selectFiles
                       [mkFile "a.mp3" 1000 "audio/mpeg";
                        mkFile "b.wav" 2000 "audio/wav"] false
                       BatchProcessingManager.constructor))))).
  vm_compute. reflexivity.
Defined.

End SingleFlight.


(** * Further properties of the utilities *)

Section Utilities.
Import AudioTranslateUtils.

Lemma includes_In (allowedTypes : list string) (t : string) :
  includes allowedTypes t = true <-> In t allowedTypes.
Proof.
  unfold includes. rewrite existsb_exists. split.
  - intros (y & Hy & E). apply String.eqb_eq in E. now subst.
  - intros H. exists t. split; [assumption|apply String.eqb_refl].
Qed.

Lemma validateFile_valid_iff (file : File) (allowedTypes : list string)
    (maxSize : N) :
  isValid (validateFile file allowedTypes maxSize) = true
  <-> In (type file) allowedTypes /\ (size file <= maxSize)%N.
Proof.
  unfold validateFile. cbn [isValid].
  pose proof (includes_In allowedTypes (type file)) as Hinc.
  destruct (includes allowedTypes (type file)) eqn:Et;
    destruct (N.ltb_spec maxSize (size file)) as [Hs|Hs]; cbn;
    split; try discriminate; try tauto; try lia;
    try (intros [H _]; apply Hinc in H; discriminate).
Qed.

(** A file is valid exactly when its type is one of the allowed types
    and its size does not exceed the maximum (a file of exactly the
    maximum size passes); it is valid exactly when no error is listed;
    and the type error, when present, precedes the size error. *)
Theorem validateFile_verdict (file : File) (allowedTypes : list string)
    (maxSize : N) :
  let result := validateFile file allowedTypes maxSize in
  (isValid result = true
   <-> In (type file) allowedTypes /\ (size file <= maxSize)%N)
  /\ (isValid result = true <-> errors result = [])
  /\ errors result
     = (if includes allowedTypes (type file) then []
        else [typeError allowedTypes])
         ++ (if (maxSize <? size file)%N then [sizeError maxSize] else []).
Proof.
  cbv zeta. unfold validateFile. cbn [isValid errors].
  pose proof (includes_In allowedTypes (type file)) as Hinc.
  destruct (includes allowedTypes (type file)) eqn:Et;
    destruct (N.ltb_spec maxSize (size file)) as [Hs|Hs]; cbn;
    (split; [|split; [|reflexivity]]); split;
    try discriminate; try reflexivity; try tauto; try lia;
    try (intros [H _]; apply Hinc in H; discriminate).
Qed.

Lemma unitIndex_small (bytes : N) :
  (0 < bytes)%N -> (bytes < k ^ 4)%N -> (unitIndex bytes < 4)%N.
Proof.
  intros Hpos Hlt. unfold unitIndex.
  assert (H40 : (N.log2 bytes < 40)%N).
  { apply N.log2_lt_pow2; [assumption|].
    rewrite k_pow in Hlt. exact Hlt. }
  apply N.Div0.div_lt_upper_bound. exact H40.
Qed.

Lemma unitIndex_large (bytes : N) :
  (k ^ 4 <= bytes)%N -> (4 <= unitIndex bytes)%N.
Proof.
  intros Hle. unfold unitIndex.
  assert (Hpos : (0 < bytes)%N).
  { eapply N.lt_le_trans; [|exact Hle]. reflexivity. }
  assert (H40 : (40 <= N.log2 bytes)%N).
  { apply N.log2_le_pow2; [assumption|].
    rewrite k_pow in Hle. exact Hle. }
  apply N.div_le_lower_bound; [discriminate|exact H40].
Qed.

(** The text of a non-zero size is a number between 1 and 1024 (as
    hundredths, between 100 and 102400: the rounding can reach 1024 of
    a unit) followed by a unit.  Below 1024^4 bytes the unit is one of
    Bytes, KB, MB, GB; from 1024^4 bytes on the table of units is
    exhausted and the unit reads "undefined". *)
Theorem formatFileSize_number_and_unit (bytes : N) :
  (0 < bytes)%N ->
  exists h i : N,
    formatFileSize bytes
    = (hundredthsToString h ++ " " ++ sizeLabel i)%string
    /\ (100 <= h <= 102400)%N
    /\ ((bytes < k ^ 4)%N -> In (sizeLabel i) sizes)
    /\ ((k ^ 4 <= bytes)%N -> sizeLabel i = "undefined").
Proof.
  intros Hpos.
  exists (toFixed2 bytes (k ^ unitIndex bytes)), (unitIndex bytes).
  destruct (unitIndex_spec bytes Hpos) as [Hlo Hhi].
  assert (Hd : (0 < k ^ unitIndex bytes)%N).
  { apply N.neq_0_lt_0, N.pow_nonzero. discriminate. }
  pose proof (toFixed2_nearest bytes _ Hd) as Hnear.
  rewrite N.pow_add_r in Hhi. change (k ^ 1)%N with 1024%N in Hhi.
  split; [|split; [|split]].
  - unfold formatFileSize.
    destruct (N.eqb_spec bytes 0) as [E|_]; [lia|reflexivity].
  - set (d := (k ^ unitIndex bytes)%N) in *.
    set (h := toFixed2 bytes d) in *. nia.
  - intros Hsmall. pose proof (unitIndex_small bytes Hpos Hsmall) as Hi.
    unfold sizeLabel.
    assert (Hn : (N.to_nat (unitIndex bytes) < 4)%nat) by lia.
    destruct (N.to_nat (unitIndex bytes)) as [|[|[|[|n]]]];
      cbn; try tauto. lia.
  - intros Hlarge. pose proof (unitIndex_large bytes Hlarge) as Hi.
    unfold sizeLabel. apply nth_overflow. cbn. lia.
Qed.

(** One byte short of a megabyte: the rounding reaches 1024 KB. *)
Lemma formatFileSize_number_and_unit_witness :
  exists h i : N,
    formatFileSize 1048575
    = (hundredthsToString h ++ " " ++ sizeLabel i)%string
    /\ (100 <= h <= 102400)%N
    /\ ((1048575 < k ^ 4)%N -> In (sizeLabel i) sizes)
    /\ ((k ^ 4 <= 1048575)%N -> sizeLabel i = "undefined").
Proof.
  apply (formatFileSize_number_and_unit 1048575). reflexivity.
Defined.

Example formatFileSize_rounds_up_to_1024 :
  formatFileSize 1048575 = "1024 KB".
Proof. vm_compute. reflexivity. Qed.

Lemma two_digits (n : nat) :
  (n < 60)%nat ->
  let r := Z.of_nat n in
  ((if (r <? 10)%Z then "0" else "") ++ Z_toString r)%string
  = String (digitChar (r / 10)) (String (digitChar (r mod 10)) "").
Proof.
  intros H.
  do 60 (destruct n as [|n]; [vm_compute; reflexivity|]).
  lia.
Qed.

(** For a non-negative number of seconds the text is the number of
    whole minutes (not wrapped into hours), a colon and exactly two
    digits of seconds, below 60; minutes and seconds add up to the
    input. *)
Theorem formatTime_minutes_and_seconds (seconds : Z) :
  (0 <= seconds)%Z ->
  exists tens units : Z,
    formatTime seconds
    = (Z_toString (seconds / 60) ++ ":"
         ++ String (digitChar tens) (String (digitChar units) ""))%string
    /\ (0 <= tens < 6)%Z /\ (0 <= units < 10)%Z
    /\ (60 * (seconds / 60) + 10 * tens + units = seconds)%Z.
Proof.
  intros Hpos.
  pose proof (Z.mod_pos_bound seconds 60 eq_refl) as Hr.
  exists ((seconds mod 60) / 10)%Z, ((seconds mod 60) mod 10)%Z.
  split; [|split; [|split]].
  - unfold formatTime. cbv zeta.
    rewrite Z.rem_mod_nonneg by lia.
    rewrite <- (Z2Nat.id (seconds mod 60)) by lia.
    f_equal. f_equal. apply two_digits. lia.
  - split; [apply Z.div_pos; lia|].
    apply Z.div_lt_upper_bound; lia.
  - apply Z.mod_pos_bound. reflexivity.
  - pose proof (Z.div_mod seconds 60) as H1.
    pose proof (Z.div_mod (seconds mod 60) 10) as H2. lia.
Qed.

(** An hour and five seconds. *)
Lemma formatTime_minutes_and_seconds_witness :
  exists tens units : Z,
    formatTime 3605
    = (Z_toString (3605 / 60) ++ ":"
         ++ String (digitChar tens) (String (digitChar units) ""))%string
    /\ (0 <= tens < 6)%Z /\ (0 <= units < 10)%Z
    /\ (60 * (3605 / 60) + 10 * tens + units = 3605)%Z.
Proof.
  apply (formatTime_minutes_and_seconds 3605). lia.
Defined.

Example formatTime_hour : formatTime 3605 = "60:05".
Proof. vm_compute. reflexivity. Qed.

Example formatTime_negative : formatTime (-1) = "-1:0-1".
Proof. vm_compute. reflexivity. Qed.

Lemma burst_invoked {A : Type} (argss : list A) :
  forall d : Debounced A, invoked (burst argss d) = invoked d.
Proof.
  induction argss as [|a rest IH]; intros d; [reflexivity|].
  cbn. unfold burst in IH. now rewrite IH.
Qed.

(** However many calls of a debounced function precede the firing of
    its timer, the function proper runs once, with the arguments of the
    last call; the earlier calls are dropped, and with no timer left a
    further firing does nothing. *)
Theorem debounce_keeps_last_call {A : Type} (d : Debounced A)
    (earlier : list A) (last : A) :
  let fired := later (burst (earlier ++ [last]) d) in
  invoked fired = invoked d ++ [last]
  /\ timeout fired = None
  /\ later fired = fired.
Proof.
  cbv zeta. unfold burst. rewrite fold_left_app. cbn [fold_left].
  fold (burst earlier d). unfold later at 1 2.
  cbn [timeout executedFunction invoked].
  rewrite burst_invoked. repeat split.
Qed.

End Utilities.

(** ** Event bus *)

Section EventBusProperties.
Import EventBus.

Lemma own_assign_same event callbacks props :
  own event (assign event callbacks props) = Some callbacks.
Proof.
  induction props as [|[key old] rest IH]; cbn.
  - now rewrite String.eqb_refl.
  - destruct (String.eqb_spec event key) as [->|Hne]; cbn.
    + now rewrite String.eqb_refl.
    + destruct (String.eqb_spec event key); [contradiction|exact IH].
Qed.

Lemma own_assign_other event other callbacks props :
  other <> event ->
  own other (assign event callbacks props) = own other props.
Proof.
  intros Hne. induction props as [|[key old] rest IH]; cbn.
  - destruct (String.eqb_spec other event); [contradiction|reflexivity].
  - destruct (String.eqb_spec event key) as [->|Hek]; cbn.
    + destruct (String.eqb_spec other key); [contradiction|reflexivity].
    + destruct (String.eqb_spec other key); [reflexivity|exact IH].
Qed.

Lemma on_listeners event callback b :
  inherited event = false ->
  exists b',
    on event callback b = Some b'
    /\ own event (events b') = Some (listeners event b ++ [callback])
    /\ forall other, other <> event ->
         own other (events b') = own other (events b).
Proof.
  intros Hinh. unfold on, listeners.
  destruct (own event (events b)) as [callbacks|] eqn:E.
  - eexists. split; [reflexivity|]. cbn. split.
    + apply own_assign_same.
    + intros other Hne. now apply own_assign_other.
  - rewrite Hinh. eexists. split; [reflexivity|]. cbn. split.
    + apply own_assign_same.
    + intros other Hne. now apply own_assign_other.
Qed.

Lemma emit_listeners {D : Type} event (data : D) b :
  inherited event = false ->
  emit event data b
  = Some (map (fun callback => (callback, data)) (listeners event b)).
Proof.
  intros Hinh. unfold emit, listeners.
  destruct (own event (events b)); [reflexivity|].
  now rewrite Hinh.
Qed.

(** Registering callbacks for an event (whose name is not an inherited
    member) appends them to its listeners: an emit then calls the
    earlier listeners and the new ones in registration order, each
    once per registration and each with the emitted data, and the
    listeners of every other event are untouched. *)
Theorem emit_calls_in_registration_order {D : Type} (event : string)
    (callbacks : list Callback) (data : D) (b : Bus) :
  inherited event = false ->
  exists b',
    run (map (On event) callbacks) b = Some b'
    /\ emit event data b'
       = Some (map (fun callback => (callback, data))
                 (listeners event b ++ callbacks))
    /\ forall other, other <> event ->
         own other (events b') = own other (events b).
Proof.
  intros Hinh. revert b.
  induction callbacks as [|c cs IH]; intros b.
  - exists b. split; [reflexivity|]. split; [|reflexivity].
    rewrite app_nil_r. now apply emit_listeners.
  - destruct (on_listeners event c b Hinh) as (b1 & Hon & Hown & Hother).
    destruct (IH b1) as (b' & Hrun & Hemit & Hother').
    exists b'. split; [cbn; rewrite Hon; exact Hrun|]. split.
    + rewrite Hemit. unfold listeners at 1. rewrite Hown.
      now rewrite <- app_assoc.
    + intros other Hne. rewrite Hother' by assumption. now apply Hother.
Qed.

(** Three registrations, one callback twice, on a new bus. *)
Lemma emit_calls_in_registration_order_witness :
  exists b',
    run (map (On "progress") [1; 2; 1]%nat) constructor = Some b'
    /\ emit "progress" 50%nat b'
       = Some (map (fun callback => (callback, 50%nat))
                 (listeners "progress" constructor ++ [1; 2; 1]%nat))
    /\ forall other, other <> "progress" ->
         own other (events b') = own other (events constructor).
Proof.
  apply (emit_calls_in_registration_order "progress" [1; 2; 1]%nat 50%nat
           constructor).
  reflexivity.
Defined.

Lemma off_listeners (event : string) (callback : Callback) (b : Bus) :
  inherited event = false ->
  exists b',
    off event callback b = Some b'
    /\ listeners event b'
       = filter (fun cb => negb (Nat.eqb cb callback)) (listeners event b)
    /\ forall other, other <> event ->
         own other (events b') = own other (events b).
Proof.
  intros Hinh. unfold off, listeners.
  destruct (own event (events b)) as [callbacks|] eqn:E.
  - eexists. split; [reflexivity|]. cbn. split.
    + now rewrite own_assign_same.
    + intros other Hne. now apply own_assign_other.
  - rewrite Hinh. exists b. split; [reflexivity|].
    rewrite E. split; reflexivity.
Qed.

(** [off] removes every registration of the callback for the event,
    also when it was registered several times, and keeps the other
    listeners in their order: a later emit never calls the callback;
    the listeners of every other event are untouched. *)
Theorem off_removes_every_registration {D : Type} (event : string)
    (callback : Callback) (data : D) (b : Bus) :
  inherited event = false ->
  exists b',
    off event callback b = Some b'
    /\ listeners event b'
       = filter (fun cb => negb (Nat.eqb cb callback)) (listeners event b)
    /\ ~ In callback (listeners event b')
    /\ emit event data b'
       = Some (map (fun cb => (cb, data))
                 (filter (fun cb => negb (Nat.eqb cb callback))
                    (listeners event b)))
    /\ forall other, other <> event ->
         own other (events b') = own other (events b).
Proof.
  intros Hinh.
  assert (Hnotin : forall l,
             ~ In callback
                 (filter (fun cb => negb (Nat.eqb cb callback)) l)).
  { intros l Hin. apply filter_In in Hin. destruct Hin as [_ Hne].
    now rewrite Nat.eqb_refl in Hne. }
  unfold off.
  destruct (own event (events b)) as [callbacks|] eqn:E.
  - eexists. split; [reflexivity|].
    assert (Hl : listeners event b = callbacks)
      by (unfold listeners; now rewrite E).
    assert (Hl' : listeners event
                    (mkBus
                       (assign event
                          (filter (fun cb => negb (Nat.eqb cb callback))
                             callbacks) (events b)))
                  = filter (fun cb => negb (Nat.eqb cb callback)) callbacks).
    { unfold listeners. cbn. now rewrite own_assign_same. }
    rewrite Hl. split; [exact Hl'|]. split; [rewrite Hl'; apply Hnotin|].
    split.
    + rewrite emit_listeners by assumption. now rewrite Hl'.
    + intros other Hne. cbn. now apply own_assign_other.
  - rewrite Hinh. exists b. split; [reflexivity|].
    assert (Hl : listeners event b = [])
      by (unfold listeners; now rewrite E).
    rewrite Hl. cbn. split; [reflexivity|]. split; [tauto|].
    split; [|reflexivity].
    rewrite emit_listeners by assumption. now rewrite Hl.
Qed.

(** A callback registered twice among others, then removed. *)
Lemma off_removes_every_registration_witness :
  exists b',
    off "done" 1%nat (mkBus [("done", [1; 2; 1; 3]%nat)]) = Some b'
    /\ listeners "done" b'
       = filter (fun cb => negb (Nat.eqb cb 1))
           (listeners "done" (mkBus [("done", [1; 2; 1; 3]%nat)]))
    /\ ~ In 1%nat (listeners "done" b')
    /\ emit "done" tt b'
       = Some (map (fun cb => (cb, tt))
                 (filter (fun cb => negb (Nat.eqb cb 1))
                    (listeners "done" (mkBus [("done", [1; 2; 1; 3]%nat)]))))
    /\ forall other, other <> "done" ->
         own other (events b')
         = own other (events (mkBus [("done", [1; 2; 1; 3]%nat)])).
Proof.
  apply (off_removes_every_registration "done" 1%nat tt
           (mkBus [("done", [1; 2; 1; 3]%nat)])).
  reflexivity.
Defined.

Lemma filter_all_true {A : Type} (f : A -> bool) (l : list A) :
  (forall x, In x l -> f x = true) -> filter f l = l.
Proof.
  induction l as [|a l IH]; intros H; [reflexivity|].
  cbn. rewrite (H a) by now left.
  rewrite IH; [reflexivity|]. intros x Hx. apply H. now right.
Qed.

(** Registering a callback that is not yet a listener of the event and
    removing it again restores the listeners of the event, so every
    emit makes the calls it made before. *)
Theorem on_then_off_restores {D : Type} (event : string)
    (callback : Callback) (data : D) (b : Bus) :
  inherited event = false ->
  ~ In callback (listeners event b) ->
  exists b1 b2,
    on event callback b = Some b1
    /\ off event callback b1 = Some b2
    /\ listeners event b2 = listeners event b
    /\ emit event data b2 = emit event data b.
Proof.
  intros Hinh Hfresh.
  destruct (on_listeners event callback b Hinh) as (b1 & Hon & Hown & _).
  destruct (off_listeners event callback b1 Hinh) as (b2 & Hoff & Hl & _).
  assert (Hemit : emit event data b2
                  = Some (map (fun cb => (cb, data))
                            (filter (fun cb => negb (Nat.eqb cb callback))
                               (listeners event b1)))).
  { rewrite emit_listeners by assumption. now rewrite Hl. }
  exists b1, b2. split; [assumption|]. split; [assumption|].
  assert (Hl1 : listeners event b1 = listeners event b ++ [callback])
    by (unfold listeners at 1; now rewrite Hown).
  assert (Hfilter : filter (fun cb => negb (Nat.eqb cb callback))
                      (listeners event b1)
                    = listeners event b).
  { rewrite Hl1, filter_app. cbn. rewrite Nat.eqb_refl. cbn.
    rewrite app_nil_r. apply filter_all_true.
    intros x Hx. destruct (Nat.eqb_spec x callback) as [->|_];
      [contradiction|reflexivity]. }
  split.
  - now rewrite Hl.
  - rewrite Hemit, Hfilter. symmetry. now apply emit_listeners.
Qed.

(** A new callback among two listeners. *)
Lemma on_then_off_restores_witness :
  exists b1 b2,
    on "done" 7%nat (mkBus [("done", [1; 2]%nat)]) = Some b1
    /\ off "done" 7%nat b1 = Some b2
    /\ listeners "done" b2 = listeners "done" (mkBus [("done", [1; 2]%nat)])
    /\ emit "done" tt b2 = emit "done" tt (mkBus [("done", [1; 2]%nat)]).
Proof.
  apply (on_then_off_restores "done" 7%nat tt (mkBus [("done", [1; 2]%nat)])).
  - reflexivity.
  - cbn. intros [H|[H|[]]]; discriminate.
Defined.

Lemma apply_no_inherited_own (b b' : Bus) (op : Op) :
  (forall key, inherited key = true -> own key (events b) = None) ->
  apply b op = Some b' ->
  forall key, inherited key = true -> own key (events b') = None.
Proof.
  intros Hinv Happly key Hkey.
  assert (Hassign : forall event callbacks,
             (own event (events b) <> None \/ inherited event = false) ->
             own key (assign event callbacks (events b)) = None).
  { intros event callbacks Hevent.
    rewrite own_assign_other; [now apply Hinv|].
    intros ->. destruct Hevent as [H|H]; [|congruence].
    apply H. now apply Hinv. }
  destruct op as [event callback|event callback]; cbn in Happly.
  - unfold on in Happly.
    destruct (own event (events b)) eqn:E.
    + inversion Happly; subst. cbn. apply Hassign. left. congruence.
    + destruct (inherited event) eqn:Ei; [discriminate|].
      inversion Happly; subst. cbn. apply Hassign. now right.
  - unfold off in Happly.
    destruct (own event (events b)) eqn:E.
    + inversion Happly; subst. cbn. apply Hassign. left. congruence.
    + destruct (inherited event) eqn:Ei; [discriminate|].
      inversion Happly; subst. now apply Hinv.
Qed.

Lemma run_no_inherited_own (ops : list Op) :
  forall b b',
    (forall key, inherited key = true -> own key (events b) = None) ->
    run ops b = Some b' ->
    forall key, inherited key = true -> own key (events b') = None.
Proof.
  induction ops as [|op rest IH]; intros b b' Hinv Hrun.
  - inversion Hrun; subst. exact Hinv.
  - cbn in Hrun. destruct (apply b op) as [b1|] eqn:E; [|discriminate].
    eapply IH; [|exact Hrun]. eapply apply_no_inherited_own; eauto.
Qed.

(** In every state a bus can reach, an event named like a member that
    objects inherit ("constructor", "toString", "valueOf", ...) cannot
    be used: registering for it, removing from it and emitting it all
    fail with a type error. *)
Theorem inherited_event_names_fail {D : Type} (ops : list Op) (b : Bus)
    (event : string) (callback : Callback) (data : D) :
  run ops constructor = Some b ->
  inherited event = true ->
  on event callback b = None
  /\ off event callback b = None
  /\ emit event data b = None.
Proof.
  intros Hrun Hinh.
  assert (Hown : own event (events b) = None).
  { eapply run_no_inherited_own; [|exact Hrun|exact Hinh].
    reflexivity. }
  unfold on, off, emit. rewrite Hown, Hinh. repeat split.
Qed.

(** A bus with one listener, and the event "constructor". *)
Lemma inherited_event_names_fail_witness :
  on "constructor" 1%nat (mkBus [("done", [1%nat])]) = None
  /\ off "constructor" 1%nat (mkBus [("done", [1%nat])]) = None
  /\ emit "constructor" tt (mkBus [("done", [1%nat])]) = None.
Proof.
  apply (inherited_event_names_fail [On "done" 1%nat]
           (mkBus [("done", [1%nat])]) "constructor" 1%nat tt);
    reflexivity.
Defined.

End EventBusProperties.

(** ** File selection *)

Section FileSelection.
Import AudioTranslateUtils FileUploadManager.

Lemma loop_from (files : list File) :
  forall html total0 errs,
    fold_left loopBody files (mkLoopState html total0 errs)
    = mkLoopState (html ++ map batchItem files)
        (total0 + sumSizes files)%N
        (errs || existsb (fun f => negb (batchFileValid f)) files).
Proof.
  induction files as [|f fs IH]; intros html total0 errs.
  - cbn. now rewrite app_nil_r, N.add_0_r, orb_false_r.
  - cbn [fold_left]. unfold loopBody at 2. cbn [fileListHTML totalSize
      hasErrors]. fold (batchFileValid f).
    cbn [map sumSizes fold_right existsb]. fold (sumSizes fs).
    unfold batchItem.
    destruct (batchFileValid f) eqn:E; rewrite IH; cbn [negb];
      rewrite <- app_assoc, N.add_assoc; cbn [app].
    + reflexivity.
    + now rewrite orb_true_r.
Qed.

Lemma batchFileValid_iff (file : File) :
  batchFileValid file = true
  <-> In (type file) allowedAudioTypes /\ (size file <= 52428800)%N.
Proof.
  unfold batchFileValid.
  apply (validateFile_valid_iff file allowedAudioTypes (50 * 1024 * 1024)).
Qed.

Lemma all_valid_Forall (files : list File) :
  existsb (fun f => negb (batchFileValid f)) files = false
  <-> Forall (fun f => In (type f) allowedAudioTypes
                       /\ (size f <= 52428800)%N) files.
Proof.
  induction files as [|f fs IH]; cbn [existsb].
  - split; [constructor|reflexivity].
  - rewrite orb_false_iff, negb_false_iff, IH, batchFileValid_iff.
    split.
    + intros [H1 H2]. now constructor.
    + intros H. inversion H; subst. now split.
Qed.

(** Files of at most 50MB each, at most ten of them, never add up to
    more than 500MB. *)
Lemma sumSizes_bound (files : list File) :
  Forall (fun f => In (type f) allowedAudioTypes
                   /\ (size f <= 52428800)%N) files ->
  (sumSizes files <= 52428800 * N.of_nat (List.length files))%N.
Proof.
  induction 1 as [|f fs [_ Hf] _ IH]; cbn [sumSizes fold_right List.length].
  - cbn. lia.
  - fold (sumSizes fs). lia.
Qed.

(** For a non-empty selection the batch path lists one item per file,
    in order, and enables the process button exactly when every file has
    an allowed type and at most 50MB, there are at most ten files and
    they total at most 500MB; in that case, and only then, it sends its
    success notification. *)
Theorem batch_selection_verdict (files : list File) (a : BatchArea)
    (btn : Button) :
  files <> [] -> processBtn a = Some btn ->
  let a' := handleBatchFileSelection files a in
  let passes :=
    Forall (fun f => In (type f) allowedAudioTypes
                     /\ (size f <= 52428800)%N) files
    /\ (List.length files <= 10)%nat
    /\ (sumSizes files <= 524288000)%N in
  option_map items (fileList a') = Some (map batchItem files)
  /\ (exists btn',
        processBtn a' = Some btn'
        /\ textContent btn' = textContent btn
        /\ (disabled btn' = false <-> passes))
  /\ (batchLog a' <> batchLog a <-> passes).
Proof.
  intros Hne Hbtn a' passes. subst a'. unfold handleBatchFileSelection.
  destruct files as [|f0 fs0]; [congruence|].
  set (files := f0 :: fs0) in *.
  assert (Hlen : (0 <? List.length files)%nat = true) by reflexivity.
  rewrite Hlen. rewrite loop_from. cbn zeta.
  cbn [fileListHTML totalSize hasErrors fileList processBtn batchLog
       option_map items app orb].
  rewrite N.add_0_l. rewrite Hbtn. cbn [setDisabled option_map].
  assert (Hlen0 : (List.length files =? 0)%nat = false) by reflexivity.
  rewrite Hlen0, orb_false_r.
  set (bad := existsb (fun f => negb (batchFileValid f)) files).
  set (tooBig := (500 * 1024 * 1024 <? sumSizes files)%N).
  set (tooMany := (10 <? List.length files)%nat).
  assert (Hpass : bad || tooBig || tooMany = false <-> passes).
  { subst passes bad tooBig tooMany.
    rewrite !orb_false_iff, all_valid_Forall, N.ltb_ge, Nat.ltb_ge.
    change (500 * 1024 * 1024)%N with 524288000%N. tauto. }
  split; [reflexivity|]. split.
  - eexists. split; [reflexivity|]. split; [reflexivity|]. exact Hpass.
  - destruct (bad || tooBig || tooMany) eqn:E; cbn [negb].
    + split; [congruence|]. intros H. apply Hpass in H. discriminate.
    + split; [intros _; now apply Hpass|].
      intros _ H. unfold showNotification in H.
      apply (f_equal (@List.length Notification)) in H.
      rewrite length_app in H. cbn in H. lia.
Qed.

(** Two valid files on the page as loaded. *)
Lemma batch_selection_verdict_witness :
  let files := [mkFile "a.mp3" 1000 "audio/mpeg";
                mkFile "b.wav" 2000 "audio/wav"] in
  let a := mkBatchArea None (Some (mkButton true "Process Files")) [] in
  let a' := handleBatchFileSelection files a in
  let passes :=
    Forall (fun f => In (type f) allowedAudioTypes
                     /\ (size f <= 52428800)%N) files
    /\ (List.length files <= 10)%nat
    /\ (sumSizes files <= 524288000)%N in
  option_map items (fileList a') = Some (map batchItem files)
  /\ (exists btn',
        processBtn a' = Some btn'
        /\ textContent btn' = textContent (mkButton true "Process Files")
        /\ (disabled btn' = false <-> passes))
  /\ (batchLog a' <> batchLog a <-> passes).
Proof.
  apply (batch_selection_verdict
           [mkFile "a.mp3" 1000 "audio/mpeg"; mkFile "b.wav" 2000 "audio/wav"]
           (mkBatchArea None (Some (mkButton true "Process Files")) [])
           (mkButton true "Process Files")).
  - discriminate.
  - reflexivity.
Defined.

(** The total-size check of the batch path never fires on its own: when
    the note about the 500MB limit is shown, so is the note about the
    ten-file limit, or some file of the list is rejected. *)
Theorem total_size_note_never_alone (files : list File) (a : BatchArea)
    (view : FileListView) :
  fileList (handleBatchFileSelection files a) = Some view ->
  In "Total size exceeds 500MB limit" (notes view) ->
  files <> [] ->
  In "Maximum 10 files allowed" (notes view)
  \/ exists f, In f files /\ batchFileValid f = false
               /\ In (batchItem f) (items view).
Proof.
  intros Hview Hnote Hne. unfold handleBatchFileSelection in Hview.
  destruct files as [|f0 fs0]; [congruence|].
  set (files := f0 :: fs0) in *.
  assert (Hlen : (0 <? List.length files)%nat = true) by reflexivity.
  rewrite Hlen, loop_from in Hview. cbn zeta in Hview.
  cbn [fileListHTML totalSize hasErrors fileList app] in Hview.
  rewrite N.add_0_l in Hview.
  destruct (10 <? List.length files)%nat eqn:Emany;
    destruct (500 * 1024 * 1024 <? sumSizes files)%N eqn:Ebig;
    injection Hview as Hv; subst view; unfold notes, items in *.
  1, 2: left; cbn; tauto.
  2: destruct Hnote.
  right.
  destruct (existsb (fun f => negb (batchFileValid f)) files) eqn:Ebad.
  - apply existsb_exists in Ebad. destruct Ebad as (f & Hin & Hf).
    exists f. split; [assumption|]. split.
    + now apply negb_true_iff.
    + exact (in_map batchItem files f Hin).
  - exfalso. apply all_valid_Forall in Ebad.
    apply sumSizes_bound in Ebad.
    apply Nat.ltb_ge in Emany. apply N.ltb_lt in Ebig.
    change (500 * 1024 * 1024)%N with 524288000%N in Ebig. lia.
Qed.

(** Eleven files of 50MB: 550MB in all. *)
Lemma total_size_note_never_alone_witness :
  let files := repeat (mkFile "a.mp3" 52428800 "audio/mpeg") 11 in
  let view :=
    mkFileListView (map batchItem files)
      ["Total size exceeds 500MB limit"; "Maximum 10 files allowed"] in
  In "Maximum 10 files allowed" (notes view)
  \/ exists f, In f files /\ batchFileValid f = false
               /\ In (batchItem f) (items view).
Proof.
  apply (total_size_note_never_alone
           (repeat (mkFile "a.mp3" 52428800 "audio/mpeg") 11)
           (mkBatchArea None None [])).
  - vm_compute. reflexivity.
  - cbn. tauto.
  - discriminate.
Defined.

(** The single-file path looks at the first file of a selection only:
    the later files change nothing.  It sends exactly one notification,
    and it enables the button exactly when the first file has an allowed
    type and at most 100MB; then the notification is the success
    message, otherwise it is an error carrying the joined error
    texts. *)
Theorem single_selection_verdict (file : File) (others : list File)
    (a : UploadArea) (btn : Button) :
  enableButton a = Some btn ->
  let a' := handleFileSelection (file :: others) a in
  let passes :=
    In (type file) allowedAudioTypes /\ (size file <= 104857600)%N in
  a' = handleFileSelection [file] a
  /\ (exists n, log a' = log a ++ [n]
                /\ (kind n = "success" <-> passes)
                /\ (kind n = "error" <-> ~ passes))
  /\ (exists btn', enableButton a' = Some btn'
                   /\ (disabled btn' = false <-> passes)).
Proof.
  intros Hbtn a' passes. subst a'. cbn [handleFileSelection].
  pose proof (validateFile_valid_iff file allowedAudioTypes
                (100 * 1024 * 1024)) as Hvalid.
  change (100 * 1024 * 1024)%N with 104857600%N in *.
  fold passes in Hvalid.
  split; [reflexivity|].
  destruct (isValid (validateFile file allowedAudioTypes 104857600)) eqn:E;
    cbn [log enableButton]; rewrite Hbtn; cbn [setDisabled option_map].
  - assert (Hp : passes) by now apply Hvalid.
    split.
    + eexists. split; [reflexivity|]. cbn [kind].
      split; split; try discriminate; tauto.
    + eexists. split; [reflexivity|]. cbn [disabled]. tauto.
  - assert (Hp : ~ passes) by (intros H; apply Hvalid in H; discriminate).
    split.
    + eexists. split; [reflexivity|]. cbn [kind].
      split; split; try discriminate; tauto.
    + eexists. split; [reflexivity|]. cbn [disabled].
      split; [discriminate|tauto].
Qed.

(** A valid first file followed by a text file. *)
Lemma single_selection_verdict_witness :
  let file := mkFile "talk.mp3" 1000 "audio/mpeg" in
  let others := [mkFile "notes.txt" 1 "text/plain"] in
  let a := mkUploadArea None (Some (mkButton true "Transcribe Audio")) [] in
  let a' := handleFileSelection (file :: others) a in
  let passes :=
    In (type file) allowedAudioTypes /\ (size file <= 104857600)%N in
  a' = handleFileSelection [file] a
  /\ (exists n, log a' = log a ++ [n]
                /\ (kind n = "success" <-> passes)
                /\ (kind n = "error" <-> ~ passes))
  /\ (exists btn', enableButton a' = Some btn'
                   /\ (disabled btn' = false <-> passes)).
Proof.
  apply (single_selection_verdict (mkFile "talk.mp3" 1000 "audio/mpeg")
           [mkFile "notes.txt" 1 "text/plain"]
           (mkUploadArea None (Some (mkButton true "Transcribe Audio")) [])
           (mkButton true "Transcribe Audio")).
  reflexivity.
Defined.

End FileSelection.

(** ** Runs of the single-job managers *)

Section SingleJobRuns.
Local Open Scope Q_scope.

Lemma total_scale (c : Q) (rs : list Q) :
  total (map (fun r => r * c) rs) == c * total rs.
Proof.
  induction rs as [|r rs IH]; [cbn; lra|].
  cbn [map]. rewrite !total_cons, IH. lra.
Qed.

Lemma scaled_nonneg (c : Q) (rs : list Q) :
  0 <= c -> Forall (fun r => 0 <= r) rs ->
  Forall (fun d => 0 <= d) (map (fun r => r * c) rs).
Proof.
  intros Hc H. induction H as [|r rs Hr _ IH]; cbn; constructor; auto.
  nra.
Qed.

(** The draws of [Math.random()] add up to less than their number. *)
Lemma draws_total (rs : list Q) :
  Forall isDraw rs ->
  Forall (fun r => 0 <= r) rs
  /\ (rs = [] \/ total rs < inject_Z (Z.of_nat (List.length rs))).
Proof.
  induction 1 as [|r rs [Hr0 Hr1] _ [IH1 IH2]].
  - split; [constructor|now left].
  - split; [now constructor|]. right.
    rewrite total_cons. cbn [List.length].
    rewrite Nat2Z.inj_succ. unfold Z.succ. rewrite inject_Z_plus.
    change (inject_Z 1) with 1.
    destruct IH2 as [->|IH2]; [|lra].
    change (total []) with 0.
    change (inject_Z (Z.of_nat (@List.length Q []))) with 0. lra.
Qed.

Lemma draws_total_lt (rs : list Q) (n : nat) :
  Forall isDraw rs -> (List.length rs <= n)%nat -> (0 < n)%nat ->
  total rs < inject_Z (Z.of_nat n).
Proof.
  intros Hrs Hlen Hn.
  assert (Hle : inject_Z (Z.of_nat (List.length rs)) <= inject_Z (Z.of_nat n))
    by (rewrite <- Zle_Qle; lia).
  destruct (draws_total rs Hrs) as [_ [->|Hlt]]; [|lra].
  cbn. change 0 with (inject_Z 0). rewrite <- Zlt_Qlt. lia.
Qed.

Lemma Math_round_100 : Math_round 100 = 100%Z.
Proof. reflexivity. Qed.

(** The blocks of the languages are filed under the languages. *)
Lemma blocks_languages (s : list string)
    (blocks : list TranslationManager.AudioPlayer) :
  Forall2 blockOf s blocks ->
  map (fun block => Some (TranslationManager.dataLanguage block)) blocks
  = map languageOf s.
Proof.
  induction 1 as [|lang block s blocks Hblock _ IH]; [reflexivity|].
  destruct (blockOf_inv lang block Hblock) as (_ & _ & _ & _ & Hof).
  cbn [map]. now rewrite IH, Hof.
Qed.

Lemma translationTicks_idle (rs : list Q) (p : TranslationManager.Page) :
  TranslationManager.interval p = None -> translationTicks rs p = p.
Proof.
  intros H. induction rs as [|r rs IH]; [reflexivity|].
  cbn. unfold TranslationManager.tick at 2. rewrite H. exact IH.
Qed.

(** The translation manager runs the job of its increments: while the
    job runs only the progress display changes; when it completes the
    continuation of [startTranslation] has run. *)
Lemma translationTicks_job (rs : list Q) :
  forall (p : TranslationManager.Page) (progress : Q),
    TranslationManager.interval p = Some progress ->
    let j := runJob (mkJob Running progress) (map (fun r => r * 10) rs) in
    let p' := translationTicks rs p in
    match jobStatus j with
    | Running =>
        TranslationManager.interval p' = Some (progressPercent j)
        /\ TranslationManager.isProcessing p'
           = TranslationManager.isProcessing p
        /\ TranslationManager.log p' = TranslationManager.log p
        /\ TranslationManager.translateBtn p'
           = TranslationManager.translateBtn p
        /\ TranslationManager.resultsShown p'
           = TranslationManager.resultsShown p
    | Completed =>
        TranslationManager.interval p' = None
        /\ TranslationManager.isProcessing p' = false
        /\ TranslationManager.log p'
           = TranslationManager.log p
               ++ [if snd (TranslationManager.buildOutputs
                             (TranslationManager.selectedLanguages p))
                   then mkNotification "Translation completed successfully!"
                          "success"
                   else mkNotification "Translation failed. Please try again."
                          "error"]
        /\ TranslationManager.translateBtn p'
           = mkButton false "Translate Audio"
        /\ TranslationManager.resultsShown p' = true
        /\ barWidth (TranslationManager.progressView p') = 100
        /\ percentage (TranslationManager.progressView p') = 100%Z
        /\ TranslationManager.translationOutputs p'
           = fst (TranslationManager.buildOutputs
                    (TranslationManager.selectedLanguages p))
    end.
Proof.
  induction rs as [|r rs IH]; intros p progress Hi.
  - cbn. repeat split; assumption.
  - cbn zeta.
    change (translationTicks (r :: rs) p)
      with (translationTicks rs (TranslationManager.tick r p)).
    change (runJob (mkJob Running progress) (map (fun r0 => r0 * 10) (r :: rs)))
      with (runJob (receive (mkJob Running progress) (r * 10))
              (map (fun r0 => r0 * 10) rs)).
    unfold TranslationManager.tick, receive. rewrite Hi.
    cbn [jobStatus progressPercent]. unfold intervalBody.
    destruct (Qle_bool 100 (progress + r * 10)) eqn:E.
    + rewrite runJob_completed by reflexivity.
      rewrite translationTicks_idle by reflexivity.
      cbn -[TranslationManager.buildOutputs].
      destruct (snd (TranslationManager.buildOutputs
                       (TranslationManager.selectedLanguages p)));
        repeat split; reflexivity.
    + match goal with
      | |- context [translationTicks rs ?q] =>
          specialize (IH q (progress + r * 10) eq_refl)
      end.
      cbn zeta in IH.
      destruct (jobStatus
                  (runJob (mkJob Running (progress + r * 10))
                     (map (fun r0 => r0 * 10) rs))); exact IH.
Qed.

Lemma transcriptionTicks_idle (rs : list Q) (p : TranscriptionManager.Page) :
  TranscriptionManager.interval p = None -> transcriptionTicks rs p = p.
Proof.
  intros H. induction rs as [|r rs IH]; [reflexivity|].
  cbn. unfold TranscriptionManager.tick at 2. rewrite H. exact IH.
Qed.

(** The same for the transcription manager. *)
Lemma transcriptionTicks_job (rs : list Q) :
  forall (p : TranscriptionManager.Page) (progress : Q),
    TranscriptionManager.interval p = Some progress ->
    let j := runJob (mkJob Running progress) (map (fun r => r * 15) rs) in
    let p' := transcriptionTicks rs p in
    match jobStatus j with
    | Running =>
        TranscriptionManager.interval p' = Some (progressPercent j)
        /\ TranscriptionManager.isProcessing p'
           = TranscriptionManager.isProcessing p
        /\ TranscriptionManager.log p' = TranscriptionManager.log p
        /\ TranscriptionManager.transcribeBtn p'
           = TranscriptionManager.transcribeBtn p
        /\ TranscriptionManager.resultsShown p'
           = TranscriptionManager.resultsShown p
    | Completed =>
        TranscriptionManager.interval p' = None
        /\ TranscriptionManager.isProcessing p' = false
        /\ TranscriptionManager.log p'
           = TranscriptionManager.log p
               ++ [mkNotification "Transcription completed successfully!"
                     "success"]
        /\ TranscriptionManager.transcribeBtn p'
           = mkButton false "Transcribe Audio"
        /\ TranscriptionManager.resultsShown p' = true
        /\ barWidth (TranscriptionManager.progressView p') = 100
        /\ percentage (TranscriptionManager.progressView p') = 100%Z
    end.
Proof.
  induction rs as [|r rs IH]; intros p progress Hi.
  - cbn. repeat split; assumption.
  - cbn zeta.
    change (transcriptionTicks (r :: rs) p)
      with (transcriptionTicks rs (TranscriptionManager.tick r p)).
    change (runJob (mkJob Running progress) (map (fun r0 => r0 * 15) (r :: rs)))
      with (runJob (receive (mkJob Running progress) (r * 15))
              (map (fun r0 => r0 * 15) rs)).
    unfold TranscriptionManager.tick, receive. rewrite Hi.
    cbn [jobStatus progressPercent]. unfold intervalBody.
    destruct (Qle_bool 100 (progress + r * 15)) eqn:E.
    + rewrite runJob_completed by reflexivity.
      rewrite transcriptionTicks_idle by reflexivity.
      cbn. repeat split; reflexivity.
    + match goal with
      | |- context [transcriptionTicks rs ?q] =>
          specialize (IH q (progress + r * 15) eq_refl)
      end.
      cbn zeta in IH.
      destruct (jobStatus
                  (runJob (mkJob Running (progress + r * 15))
                     (map (fun r0 => r0 * 15) rs))); exact IH.
Qed.

Lemma startTranslation_started (p : TranslationManager.Page) :
  TranslationManager.isProcessing p = false ->
  TranslationManager.files p <> [] ->
  TranslationManager.selectedLanguages p <> [] ->
  let p' := TranslationManager.startTranslation p in
  TranslationManager.interval p' = Some 0
  /\ TranslationManager.isProcessing p' = true
  /\ TranslationManager.translateBtn p' = mkButton true "Translating..."
  /\ TranslationManager.log p' = TranslationManager.log p
  /\ TranslationManager.selectedLanguages p'
     = TranslationManager.selectedLanguages p
  /\ TranslationManager.resultsShown p' = TranslationManager.resultsShown p.
Proof.
  intros Hproc Hfiles Hsel. unfold TranslationManager.startTranslation.
  rewrite Hproc.
  destruct (TranslationManager.files p); [congruence|].
  destruct (TranslationManager.selectedLanguages p) eqn:E; [congruence|].
  cbn. repeat split; reflexivity.
Qed.

Lemma startTranscription_started (p : TranscriptionManager.Page) :
  TranscriptionManager.isProcessing p = false ->
  TranscriptionManager.files p <> [] ->
  let p' := TranscriptionManager.startTranscription p in
  TranscriptionManager.interval p' = Some 0
  /\ TranscriptionManager.isProcessing p' = true
  /\ TranscriptionManager.transcribeBtn p' = mkButton true "Processing..."
  /\ TranscriptionManager.log p' = TranscriptionManager.log p
  /\ TranscriptionManager.resultsShown p'
     = TranscriptionManager.resultsShown p.
Proof.
  intros Hproc Hfiles. unfold TranscriptionManager.startTranscription.
  rewrite Hproc.
  destruct (TranscriptionManager.files p); [congruence|].
  cbn. repeat split; reflexivity.
Qed.

(** A translation started on a page with a file and a selection of
    codes of the language table, driven by non-negative draws: as long
    as ten times the draws add up to less than 100 the manager is
    processing, its button is disabled and nothing is notified; once
    they reach 100 the run is over, with the bar at exactly 100, the
    results shown (one block per selected code, in the order of the
    selection), one success notification, the button enabled again and
    [isProcessing] released. *)
Theorem translation_run (p : TranslationManager.Page) (rs : list Q) :
  TranslationManager.isProcessing p = false ->
  TranslationManager.files p <> [] ->
  TranslationManager.selectedLanguages p <> [] ->
  (forall lang, In lang (TranslationManager.selectedLanguages p) ->
                In lang (map fst TranslationManager.languages)) ->
  Forall (fun r => 0 <= r) rs ->
  let p' := translationTicks rs (TranslationManager.startTranslation p) in
  (10 * total rs < 100 ->
   TranslationManager.isProcessing p' = true
   /\ TranslationManager.translateBtn p' = mkButton true "Translating..."
   /\ TranslationManager.log p' = TranslationManager.log p
   /\ exists progress,
        TranslationManager.interval p' = Some progress
        /\ progress == 10 * total rs)
  /\ (100 <= 10 * total rs ->
      TranslationManager.isProcessing p' = false
      /\ TranslationManager.interval p' = None
      /\ TranslationManager.translateBtn p' = mkButton false "Translate Audio"
      /\ TranslationManager.log p'
         = TranslationManager.log p
             ++ [mkNotification "Translation completed successfully!"
                   "success"]
      /\ TranslationManager.resultsShown p' = true
      /\ barWidth (TranslationManager.progressView p') = 100
      /\ percentage (TranslationManager.progressView p') = 100%Z
      /\ map (fun block => Some (TranslationManager.dataLanguage block))
           (TranslationManager.translationOutputs p')
         = map languageOf (TranslationManager.selectedLanguages p)).
Proof.
  intros Hproc Hfiles Hsel Htable Hrs p'.
  assert (Hok : snd (TranslationManager.buildOutputs
                       (TranslationManager.selectedLanguages p)) = true).
  { apply appendOutputs_named. apply Forall_forall.
    intros lang Hin. apply table_code_named. now apply Htable. }
  destruct (startTranslation_started p Hproc Hfiles Hsel)
    as (S1 & S2 & S3 & S4 & S5 & S6).
  pose proof (translationTicks_job rs _ 0 S1) as Hjob.
  cbn zeta in Hjob. fold p' in Hjob.
  pose proof (runJob_running (map (fun r => r * 10) rs)
                (scaled_nonneg 10 rs ltac:(lra) Hrs)
                (mkJob Running 0) eq_refl ltac:(cbn; lra)) as Hrun.
  cbn zeta in Hrun. change (progressPercent (mkJob Running 0)) with 0 in Hrun.
  rewrite total_scale in Hrun.
  destruct Hrun as (R1 & R2 & R3).
  split.
  - intros Hlt.
    destruct (jobStatus (runJob (mkJob Running 0) (map (fun r => r * 10) rs)))
      eqn:E.
    + destruct Hjob as (J1 & J2 & J3 & J4 & _).
      split; [congruence|]. split; [congruence|]. split; [congruence|].
      eexists. split; [exact J1|]. rewrite (R3 eq_refl). lra.
    + assert (100 <= 0 + 10 * total rs) by now apply R1. lra.
  - intros Hge.
    assert (E : jobStatus
                  (runJob (mkJob Running 0) (map (fun r => r * 10) rs))
                = Completed) by (apply R1; lra).
    rewrite E in Hjob.
    destruct Hjob as (J1 & J2 & J3 & J4 & J5 & J6 & J7 & J8).
    rewrite S5 in J3, J8. rewrite Hok in J3.
    split; [assumption|]. split; [assumption|]. split; [assumption|].
    split; [congruence|]. split; [assumption|]. split; [assumption|].
    split; [assumption|].
    rewrite J8. apply blocks_languages.
    now apply buildOutputs_blocks.
Qed.

(** German selected, a file picked, twenty draws of 1/2. *)
Lemma translation_run_witness :
  let p := TranslationManager.selectFiles
             [mkFile "talk.mp3" 1000 "audio/mpeg"]
             (TranslationManager.clickLanguageOption 0
                (TranslationManager.constructor
                   TranslationManager.pageLanguages)) in
  let rs := repeat (1 # 2) 20 in
  let p' := translationTicks rs (TranslationManager.startTranslation p) in
  (10 * total rs < 100 ->
   TranslationManager.isProcessing p' = true
   /\ TranslationManager.translateBtn p' = mkButton true "Translating..."
   /\ TranslationManager.log p' = TranslationManager.log p
   /\ exists progress,
        TranslationManager.interval p' = Some progress
        /\ progress == 10 * total rs)
  /\ (100 <= 10 * total rs ->
      TranslationManager.isProcessing p' = false
      /\ TranslationManager.interval p' = None
      /\ TranslationManager.translateBtn p' = mkButton false "Translate Audio"
      /\ TranslationManager.log p'
         = TranslationManager.log p
             ++ [mkNotification "Translation completed successfully!"
                   "success"]
      /\ TranslationManager.resultsShown p' = true
      /\ barWidth (TranslationManager.progressView p') = 100
      /\ percentage (TranslationManager.progressView p') = 100%Z
      /\ map (fun block => Some (TranslationManager.dataLanguage block))
           (TranslationManager.translationOutputs p')
         = map languageOf (TranslationManager.selectedLanguages p)).
Proof.
  apply (translation_run
           (TranslationManager.selectFiles
              [mkFile "talk.mp3" 1000 "audio/mpeg"]
              (TranslationManager.clickLanguageOption 0
                 (TranslationManager.constructor
                    TranslationManager.pageLanguages)))
           (repeat (1 # 2) 20)).
  - reflexivity.
  - discriminate.
  - discriminate.
  - cbn. tauto.
  - repeat constructor; discriminate.
Defined.

(** A transcription started on a page with a file, driven by
    non-negative draws: as long as fifteen times the draws add up to
    less than 100 the manager is processing, its button is disabled and
    nothing is notified; once they reach 100 the run is over, with the
    bar at exactly 100, the results shown, one success notification,
    the button enabled again and [isProcessing] released. *)
Theorem transcription_run (p : TranscriptionManager.Page) (rs : list Q) :
  TranscriptionManager.isProcessing p = false ->
  TranscriptionManager.files p <> [] ->
  Forall (fun r => 0 <= r) rs ->
  let p' := transcriptionTicks rs (TranscriptionManager.startTranscription p) in
  (15 * total rs < 100 ->
   TranscriptionManager.isProcessing p' = true
   /\ TranscriptionManager.transcribeBtn p' = mkButton true "Processing..."
   /\ TranscriptionManager.log p' = TranscriptionManager.log p
   /\ exists progress,
        TranscriptionManager.interval p' = Some progress
        /\ progress == 15 * total rs)
  /\ (100 <= 15 * total rs ->
      TranscriptionManager.isProcessing p' = false
      /\ TranscriptionManager.interval p' = None
      /\ TranscriptionManager.transcribeBtn p'
         = mkButton false "Transcribe Audio"
      /\ TranscriptionManager.log p'
         = TranscriptionManager.log p
             ++ [mkNotification "Transcription completed successfully!"
                   "success"]
      /\ TranscriptionManager.resultsShown p' = true
      /\ barWidth (TranscriptionManager.progressView p') = 100
      /\ percentage (TranscriptionManager.progressView p') = 100%Z).
Proof.
  intros Hproc Hfiles Hrs p'.
  destruct (startTranscription_started p Hproc Hfiles)
    as (S1 & S2 & S3 & S4 & S5).
  pose proof (transcriptionTicks_job rs _ 0 S1) as Hjob.
  cbn zeta in Hjob. fold p' in Hjob.
  pose proof (runJob_running (map (fun r => r * 15) rs)
                (scaled_nonneg 15 rs ltac:(lra) Hrs)
                (mkJob Running 0) eq_refl ltac:(cbn; lra)) as Hrun.
  cbn zeta in Hrun. change (progressPercent (mkJob Running 0)) with 0 in Hrun.
  rewrite total_scale in Hrun.
  destruct Hrun as (R1 & R2 & R3).
  split.
  - intros Hlt.
    destruct (jobStatus (runJob (mkJob Running 0) (map (fun r => r * 15) rs)))
      eqn:E.
    + destruct Hjob as (J1 & J2 & J3 & J4 & _).
      split; [congruence|]. split; [congruence|]. split; [congruence|].
      eexists. split; [exact J1|]. rewrite (R3 eq_refl). lra.
    + assert (100 <= 0 + 15 * total rs) by now apply R1. lra.
  - intros Hge.
    assert (E : jobStatus
                  (runJob (mkJob Running 0) (map (fun r => r * 15) rs))
                = Completed) by (apply R1; lra).
    rewrite E in Hjob.
    destruct Hjob as (J1 & J2 & J3 & J4 & J5 & J6 & J7).
    split; [assumption|]. split; [assumption|]. split; [assumption|].
    split; [congruence|]. split; [assumption|]. split; assumption.
Qed.

(** A file picked, ten draws of 2/3. *)
Lemma transcription_run_witness :
  let p := TranscriptionManager.selectFiles
             [mkFile "talk.mp3" 1000 "audio/mpeg"]
             TranscriptionManager.constructor in
  let rs := repeat (2 # 3) 10 in
  let p' := transcriptionTicks rs (TranscriptionManager.startTranscription p) in
  (15 * total rs < 100 ->
   TranscriptionManager.isProcessing p' = true
   /\ TranscriptionManager.transcribeBtn p' = mkButton true "Processing..."
   /\ TranscriptionManager.log p' = TranscriptionManager.log p
   /\ exists progress,
        TranscriptionManager.interval p' = Some progress
        /\ progress == 15 * total rs)
  /\ (100 <= 15 * total rs ->
      TranscriptionManager.isProcessing p' = false
      /\ TranscriptionManager.interval p' = None
      /\ TranscriptionManager.transcribeBtn p'
         = mkButton false "Transcribe Audio"
      /\ TranscriptionManager.log p'
         = TranscriptionManager.log p
             ++ [mkNotification "Transcription completed successfully!"
                   "success"]
      /\ TranscriptionManager.resultsShown p' = true
      /\ barWidth (TranscriptionManager.progressView p') = 100
      /\ percentage (TranscriptionManager.progressView p') = 100%Z).
Proof.
  apply (transcription_run
           (TranscriptionManager.selectFiles
              [mkFile "talk.mp3" 1000 "audio/mpeg"]
              TranscriptionManager.constructor)
           (repeat (2 # 3) 10)).
  - reflexivity.
  - discriminate.
  - repeat constructor; discriminate.
Defined.

(** With draws of [Math.random()], each below 1, a translation cannot
    complete in fewer than eleven ticks of its timer and a transcription
    not in fewer than seven: after at most ten (respectively six) ticks
    the manager is still processing and has notified nothing. *)
Theorem simulated_jobs_need_many_ticks (rs : list Q)
    (p : TranslationManager.Page) (q : TranscriptionManager.Page) :
  Forall isDraw rs ->
  TranslationManager.isProcessing p = false ->
  TranslationManager.files p <> [] ->
  TranslationManager.selectedLanguages p <> [] ->
  TranscriptionManager.isProcessing q = false ->
  TranscriptionManager.files q <> [] ->
  let p' := translationTicks rs (TranslationManager.startTranslation p) in
  let q' :=
    transcriptionTicks rs (TranscriptionManager.startTranscription q) in
  ((List.length rs <= 10)%nat ->
   TranslationManager.isProcessing p' = true
   /\ TranslationManager.log p' = TranslationManager.log p
   /\ TranslationManager.resultsShown p'
      = TranslationManager.resultsShown p)
  /\ ((List.length rs <= 6)%nat ->
      TranscriptionManager.isProcessing q' = true
      /\ TranscriptionManager.log q' = TranscriptionManager.log q
      /\ TranscriptionManager.resultsShown q'
         = TranscriptionManager.resultsShown q).
Proof.
  intros Hrs Pp Pf Ps Qp Qf p' q'.
  destruct (draws_total rs Hrs) as [Hnn _].
  split.
  - intros Hlen.
    pose proof (draws_total_lt rs 10 Hrs Hlen ltac:(lia)) as Hlt.
    change (inject_Z (Z.of_nat 10)) with 10 in Hlt.
    destruct (startTranslation_started p Pp Pf Ps)
      as (S1 & S2 & _ & S4 & _ & S6).
    pose proof (translationTicks_job rs _ 0 S1) as Hjob.
    cbn zeta in Hjob. fold p' in Hjob.
    pose proof (runJob_running (map (fun r => r * 10) rs)
                  (scaled_nonneg 10 rs ltac:(lra) Hnn)
                  (mkJob Running 0) eq_refl ltac:(cbn; lra)) as Hrun.
    cbn zeta in Hrun. change (progressPercent (mkJob Running 0)) with 0 in Hrun.
    rewrite total_scale in Hrun. destruct Hrun as (R1 & _).
    destruct (jobStatus (runJob (mkJob Running 0) (map (fun r => r * 10) rs)))
      eqn:E.
    + destruct Hjob as (_ & J2 & J3 & _ & J5).
      split; [congruence|]. split; congruence.
    + assert (100 <= 0 + 10 * total rs) by now apply R1. lra.
  - intros Hlen.
    pose proof (draws_total_lt rs 6 Hrs Hlen ltac:(lia)) as Hlt.
    change (inject_Z (Z.of_nat 6)) with 6 in Hlt.
    destruct (startTranscription_started q Qp Qf)
      as (S1 & S2 & _ & S4 & S5).
    pose proof (transcriptionTicks_job rs _ 0 S1) as Hjob.
    cbn zeta in Hjob. fold q' in Hjob.
    pose proof (runJob_running (map (fun r => r * 15) rs)
                  (scaled_nonneg 15 rs ltac:(lra) Hnn)
                  (mkJob Running 0) eq_refl ltac:(cbn; lra)) as Hrun.
    cbn zeta in Hrun. change (progressPercent (mkJob Running 0)) with 0 in Hrun.
    rewrite total_scale in Hrun. destruct Hrun as (R1 & _).
    destruct (jobStatus (runJob (mkJob Running 0) (map (fun r => r * 15) rs)))
      eqn:E.
    + destruct Hjob as (_ & J2 & J3 & _ & J5).
      split; [congruence|]. split; congruence.
    + assert (100 <= 0 + 15 * total rs) by now apply R1. lra.
Qed.

(** Six draws of 0.99 for both managers. *)
Lemma simulated_jobs_need_many_ticks_witness :
  let rs := repeat (99 # 100) 6 in
  let p := TranslationManager.selectFiles
             [mkFile "talk.mp3" 1000 "audio/mpeg"]
             (TranslationManager.clickLanguageOption 0
                (TranslationManager.constructor
                   TranslationManager.pageLanguages)) in
  let q := TranscriptionManager.selectFiles
             [mkFile "talk.mp3" 1000 "audio/mpeg"]
             TranscriptionManager.constructor in
  let p' := translationTicks rs (TranslationManager.startTranslation p) in
  let q' :=
    transcriptionTicks rs (TranscriptionManager.startTranscription q) in
  ((List.length rs <= 10)%nat ->
   TranslationManager.isProcessing p' = true
   /\ TranslationManager.log p' = TranslationManager.log p
   /\ TranslationManager.resultsShown p'
      = TranslationManager.resultsShown p)
  /\ ((List.length rs <= 6)%nat ->
      TranscriptionManager.isProcessing q' = true
      /\ TranscriptionManager.log q' = TranscriptionManager.log q
      /\ TranscriptionManager.resultsShown q'
         = TranscriptionManager.resultsShown q).
Proof.
  apply (simulated_jobs_need_many_ticks (repeat (99 # 100) 6)
           (TranslationManager.selectFiles
              [mkFile "talk.mp3" 1000 "audio/mpeg"]
              (TranslationManager.clickLanguageOption 0
                 (TranslationManager.constructor
                    TranslationManager.pageLanguages)))
           (TranscriptionManager.selectFiles
              [mkFile "talk.mp3" 1000 "audio/mpeg"]
              TranscriptionManager.constructor)).
  - repeat constructor; discriminate.
  - reflexivity.
  - discriminate.
  - discriminate.
  - reflexivity.
  - discriminate.
Defined.

End SingleJobRuns.

(** ** The language options of the page *)

Section LanguageOptions.
Import TranslationManager.

Lemma setClassAt_dataLang (i : nat) (c : bool) (os : list LanguageOption) :
  map dataLang (setClassAt i c os) = map dataLang os.
Proof.
  revert i. induction os as [|o os IH]; intros [|i]; cbn;
    try reflexivity. now rewrite IH.
Qed.

Lemma nth_error_setClassAt (i k : nat) (c : bool)
    (os : list LanguageOption) :
  nth_error (setClassAt i c os) k
  = if Nat.eqb k i
    then option_map (fun o => mkLanguageOption (dataLang o) c)
           (nth_error os k)
    else nth_error os k.
Proof.
  revert i k. induction os as [|o os IH]; intros i k.
  - destruct i, k; cbn; try reflexivity;
      destruct (Nat.eqb k i); reflexivity.
  - destruct i as [|i], k as [|k]; cbn; try reflexivity. apply IH.
Qed.

Lemma distinct_options (os : list LanguageOption) (i k : nat) o o' :
  NoDup (map dataLang os) ->
  nth_error os i = Some o -> nth_error os k = Some o' ->
  dataLang o = dataLang o' -> i = k.
Proof.
  intros Hnd Hi Hk E.
  assert (Hlen : (i < List.length (map dataLang os))%nat).
  { rewrite length_map. apply nth_error_Some. congruence. }
  apply (proj1 (NoDup_nth_error (map dataLang os)) Hnd i k Hlen).
  rewrite !nth_error_map, Hi, Hk. cbn. now rewrite E.
Qed.

Lemma toggle_subset (c x : string) (s : JsSet.t) :
  In x (toggle c s) -> x = c \/ In x s.
Proof.
  intros H. apply has_In in H. rewrite has_toggle in H.
  destruct (String.eqb_spec c x) as [->|_]; [now left|].
  right. now apply has_In.
Qed.

(** What a click on an existing option does to the page. *)
Lemma click_effect (i : nat) (p : Page) o :
  nth_error (languageOptions p) i = Some o ->
  let p' := clickLanguageOption i p in
  selectedLanguages p' = toggle (dataLang o) (selectedLanguages p)
  /\ languageOptions p'
     = setClassAt i (negb (JsSet.has (dataLang o) (selectedLanguages p)))
         (languageOptions p)
  /\ translateBtn p'
     = mkButton (JsSet.size (selectedLanguages p') =? 0)%nat
         (textContent (translateBtn p))
  /\ isProcessing p' = isProcessing p
  /\ interval p' = interval p
  /\ log p' = log p.
Proof.
  intros H. unfold clickLanguageOption. rewrite H. cbn.
  repeat split; reflexivity.
Qed.

Lemma step_keeps_selection (p : Page) (e : TranslationEvent) :
  match e with
  | ClickLanguage _ | ClearSelection => True
  | _ =>
      selectedLanguages (translationStep p e) = selectedLanguages p
      /\ languageOptions (translationStep p e) = languageOptions p
  end.
Proof.
  destruct e; cbn; auto.
  - unfold startTranslation.
    destruct (isProcessing p); [auto|].
    destruct (List.length (files p) =? 0)%nat; [cbn; auto|].
    destruct (JsSet.size (selectedLanguages p) =? 0)%nat; cbn; auto.
  - unfold tick. destruct (interval p) as [progress|]; [|auto].
    destruct (intervalBody (r * 10) progress) as [q [|]]; cbn; auto.
  - unfold clickDownload.
    destruct (nth_error (translationOutputs p) i) as [player|]; [|auto].
    destruct (nth_error (downloadBtns player) j); cbn; auto.
  - unfold fireTimer. destruct (timers p); cbn; auto.
Qed.

(** The invariant of the language selection, for every run of events
    on a page whose options carry distinct codes. *)
Lemma translationRun_invariant (langs : list string)
    (es : list TranslationEvent) :
  NoDup langs ->
  let p := translationRun es (constructor langs) in
  map dataLang (languageOptions p) = langs
  /\ classesInSync p
  /\ NoDup (selectedLanguages p)
  /\ forall lang, In lang (selectedLanguages p) -> In lang langs.
Proof.
  intros Hnd.
  set (Inv := fun p : Page =>
    map dataLang (languageOptions p) = langs
    /\ classesInSync p
    /\ NoDup (selectedLanguages p)
    /\ forall lang, In lang (selectedLanguages p) -> In lang langs).
  assert (Hstep : forall p e, Inv p -> Inv (translationStep p e)).
  { intros p e (I1 & I2 & I3 & I4).
    pose proof (step_keeps_selection p e) as Hkeep.
    destruct e;
      try (unfold Inv, classesInSync;
           rewrite (proj1 Hkeep), (proj2 Hkeep); repeat split; assumption).
    - (* a click on an option *)
      cbn [translationStep].
      destruct (nth_error (languageOptions p) i) as [o|] eqn:Ho.
      + destruct (click_effect i p o Ho) as (C1 & C2 & _).
        cbn zeta in C1, C2.
        assert (Hlang : In (dataLang o) langs).
        { rewrite <- I1. apply in_map. eapply nth_error_In; eauto. }
        unfold Inv, classesInSync. rewrite C1, C2.
        split; [now rewrite setClassAt_dataLang|]. split; [|split].
        * intros k o' Hk. rewrite nth_error_setClassAt in Hk.
          rewrite has_toggle.
          destruct (Nat.eqb_spec k i) as [->|Hki].
          -- rewrite Ho in Hk. cbn in Hk. inversion Hk; subst. cbn.
             now rewrite String.eqb_refl.
          -- destruct (String.eqb_spec (dataLang o) (dataLang o'))
               as [E|_]; [|now apply I2 with k].
             exfalso. apply Hki. symmetry.
             eapply (distinct_options (languageOptions p) i k o o');
               eauto. now rewrite I1.
        * now apply NoDup_toggle.
        * intros lang Hin. apply toggle_subset in Hin.
          destruct Hin as [->|Hin]; auto.
      + unfold clickLanguageOption. rewrite Ho.
        repeat split; assumption.
    - (* the selection is cleared *)
      cbn [translationStep]. unfold Inv, classesInSync, clearSelection.
      cbn. split; [|split; [|split]].
      + rewrite map_map. cbn. exact I1.
      + intros k o Hk. rewrite nth_error_map in Hk.
        destruct (nth_error (languageOptions p) k); [|discriminate].
        now inversion Hk.
      + constructor.
      + intros lang []. }
  assert (Hrun : forall p, Inv p -> Inv (translationRun es p)).
  { induction es as [|e es IH]; intros p Hp; [assumption|].
    cbn. apply IH. now apply Hstep. }
  apply Hrun. unfold Inv, classesInSync. cbn. split; [|split; [|split]].
  - rewrite map_map. cbn. apply map_id.
  - intros k o Hk. rewrite nth_error_map in Hk.
    destruct (nth_error langs k); [|discriminate]. now inversion Hk.
  - constructor.
  - intros lang [].
Qed.

(** On a page whose language options carry distinct codes, whatever
    happens (files picked, options clicked, the selection cleared,
    translations started and run, downloads): the options keep their
    codes, an option carries the class [selected] exactly when its code
    is in the selection, the selection holds no code twice, and it only
    holds codes the page offers. *)
Theorem selection_stays_in_sync (langs : list string)
    (es : list TranslationEvent) :
  NoDup langs ->
  let p := translationRun es (constructor langs) in
  map dataLang (languageOptions p) = langs
  /\ classesInSync p
  /\ NoDup (selectedLanguages p)
  /\ forall lang, In lang (selectedLanguages p) -> In lang langs.
Proof. exact (translationRun_invariant langs es). Qed.

(** German and Russian selected on the page as loaded, German clicked
    again during a run. *)
Lemma selection_stays_in_sync_witness :
  let es := [ClickLanguage 0; ClickLanguage 2;
             PickFiles [mkFile "talk.mp3" 1000 "audio/mpeg"];
             StartTranslation; TranslationTick (1 # 2)%Q; ClickLanguage 0] in
  let p := translationRun es (constructor pageLanguages) in
  map dataLang (languageOptions p) = pageLanguages
  /\ classesInSync p
  /\ NoDup (selectedLanguages p)
  /\ forall lang, In lang (selectedLanguages p) -> In lang pageLanguages.
Proof.
  apply (selection_stays_in_sync pageLanguages
           [ClickLanguage 0; ClickLanguage 2;
            PickFiles [mkFile "talk.mp3" 1000 "audio/mpeg"];
            StartTranslation; TranslationTick (1 # 2)%Q; ClickLanguage 0]).
  unfold pageLanguages.
  repeat constructor; cbn; intuition discriminate.
Defined.

(** Two toggles of a code restore the selection with its order when the
    code was absent; when it was present they move it to the end, so a
    language that is deselected and selected again comes last in the
    selection (and in the results built from it). *)
Theorem reselecting_moves_to_the_end (c : string) (s : JsSet.t) :
  toggle c (toggle c s)
  = if JsSet.has c s then JsSet.delete c s ++ [c] else s.
Proof.
  unfold toggle at 2. destruct (JsSet.has c s) eqn:E.
  - unfold toggle.
    assert (H : JsSet.has c (JsSet.delete c s) = false).
    { rewrite has_delete, String.eqb_refl. cbn. apply andb_false_r. }
    rewrite H. unfold JsSet.add. now rewrite H.
  - unfold toggle, JsSet.add. rewrite E.
    assert (H : JsSet.has c (s ++ [c]) = true).
    { apply has_In. apply in_or_app. right. now left. }
    rewrite H. unfold JsSet.delete. rewrite filter_app. cbn.
    rewrite String.eqb_refl. cbn. rewrite app_nil_r.
    apply filter_all_true. intros x Hx.
    destruct (String.eqb_spec c x) as [<-|_]; [|reflexivity].
    apply has_In in Hx. congruence.
Qed.

(** A click on a language option sets the translate button by the
    selection alone: disabled exactly when the selection is empty, its
    text kept.  During a run this enables the button again while it
    still reads as processing, but the run goes on untouched and a
    click on the button is ignored. *)
Theorem language_click_sets_the_button (i : nat) (p : Page)
    (o : LanguageOption) :
  nth_error (languageOptions p) i = Some o ->
  let p' := clickLanguageOption i p in
  (disabled (translateBtn p') = true <-> selectedLanguages p' = [])
  /\ textContent (translateBtn p') = textContent (translateBtn p)
  /\ isProcessing p' = isProcessing p
  /\ interval p' = interval p
  /\ (isProcessing p = true -> startTranslation p' = p').
Proof.
  intros Ho p'.
  destruct (click_effect i p o Ho) as (C1 & C2 & C3 & C4 & C5 & _).
  fold p' in C1, C2, C3, C4, C5.
  split; [|split; [|split; [|split]]].
  - rewrite C3. cbn [disabled]. unfold JsSet.size.
    destruct (selectedLanguages p'); cbn; split; congruence.
  - now rewrite C3.
  - assumption.
  - assumption.
  - intros Hproc. unfold startTranslation. now rewrite C4, Hproc.
Qed.

(** French clicked while a translation into German runs. *)
Lemma language_click_sets_the_button_witness :
  let p := translationRun
             [ClickLanguage 0;
              PickFiles [mkFile "talk.mp3" 1000 "audio/mpeg"];
              StartTranslation; TranslationTick (1 # 2)%Q]
             (constructor pageLanguages) in
  let p' := clickLanguageOption 1 p in
  (disabled (translateBtn p') = true <-> selectedLanguages p' = [])
  /\ textContent (translateBtn p') = textContent (translateBtn p)
  /\ isProcessing p' = isProcessing p
  /\ interval p' = interval p
  /\ (isProcessing p = true -> startTranslation p' = p').
Proof.
  apply (language_click_sets_the_button 1
           (translationRun
              [ClickLanguage 0;
               PickFiles [mkFile "talk.mp3" 1000 "audio/mpeg"];
               StartTranslation; TranslationTick (1 # 2)%Q]
              (constructor pageLanguages))
           (mkLanguageOption "fr" false)).
  reflexivity.
Defined.

Example button_enabled_during_run :
  let p := translationRun
             [ClickLanguage 0;
              PickFiles [mkFile "talk.mp3" 1000 "audio/mpeg"];
              StartTranslation; TranslationTick (1 # 2)%Q; ClickLanguage 1]
             (constructor pageLanguages) in
  isProcessing p = true
  /\ translateBtn p = mkButton false "Translating...".
Proof. split; reflexivity. Qed.

(** [clearSelection] empties the selection, takes the class [selected]
    off every option and disables the translate button; clearing twice
    is clearing once; and on an idle page with a file a translation
    started next is refused with the request to select a language, and
    starts nothing. *)
Theorem clearSelection_resets (p : Page) :
  let p' := clearSelection p in
  selectedLanguages p' = []
  /\ map dataLang (languageOptions p') = map dataLang (languageOptions p)
  /\ Forall (fun o => selectedClass o = false) (languageOptions p')
  /\ disabled (translateBtn p') = true
  /\ clearSelection p' = p'
  /\ (isProcessing p = false -> files p <> [] ->
      startTranslation p'
      = notify "Please select at least one target language." "error" p'
      /\ interval (startTranslation p') = interval p
      /\ isProcessing (startTranslation p') = false).
Proof.
  cbv zeta. unfold clearSelection. cbn.
  split; [reflexivity|]. split; [|split; [|split; [reflexivity|split]]].
  - rewrite map_map. reflexivity.
  - apply Forall_forall. intros o Ho. apply in_map_iff in Ho.
    destruct Ho as (o' & <- & _). reflexivity.
  - unfold updateTranslateButton, setTranslateBtn, setSelection. cbn.
    rewrite map_map. cbn. reflexivity.
  - intros Hproc Hfiles. unfold startTranslation. cbn. rewrite Hproc.
    destruct (files p); [congruence|]. cbn. repeat split; assumption.
Qed.

(** Two languages selected and a file picked, then the selection
    cleared. *)
Lemma clearSelection_resets_witness :
  let p := translationRun
             [ClickLanguage 0; ClickLanguage 3;
              PickFiles [mkFile "talk.mp3" 1000 "audio/mpeg"]]
             (constructor pageLanguages) in
  let p' := clearSelection p in
  selectedLanguages p' = []
  /\ map dataLang (languageOptions p') = map dataLang (languageOptions p)
  /\ Forall (fun o => selectedClass o = false) (languageOptions p')
  /\ disabled (translateBtn p') = true
  /\ clearSelection p' = p'
  /\ (isProcessing p = false -> files p <> [] ->
      startTranslation p'
      = notify "Please select at least one target language." "error" p'
      /\ interval (startTranslation p') = interval p
      /\ isProcessing (startTranslation p') = false).
Proof.
  apply (clearSelection_resets
           (translationRun
              [ClickLanguage 0; ClickLanguage 3;
               PickFiles [mkFile "talk.mp3" 1000 "audio/mpeg"]]
              (constructor pageLanguages))).
Defined.

End LanguageOptions.

(** ** The batch manager under every event *)

Section BatchEvents.
Import BatchProcessingManager.

Lemma step_keeps_run (p : Page) (e : Event) (s : Simulation) :
  batchEventInRange e ->
  isProcessing p = true -> interval p = Some s -> onFirstFile s ->
  isProcessing (step p e) = true
  /\ exists s',
       interval (step p e) = Some s' /\ onFirstFile s'
       /\ filesProcessed s' = filesProcessed s.
Proof.
  intros He Hproc Hi Hs.
  destruct e; cbn [step];
    try (cbn; split; [assumption|exists s; auto]).
  - unfold processBatch. rewrite Hproc. split; [assumption|exists s; auto].
  - cbn in He.
    destruct (tick_onFirstFile r p s He Hi Hs) as (T1 & _ & T3 & _).
    destruct (intervalCallback_onFirstFile r s He Hs) as (_ & I2 & I3 & _).
    split; [congruence|]. eexists. split; [exact T1|]. auto.
  - unfold fireTimer. destruct (timers p); cbn;
      (split; [assumption|exists s; auto]).
Qed.

(** Once a batch has been started nothing ends it: whatever happens
    afterwards (ticks with any draws, [resetBatch], new files or
    another operation picked, downloads, further clicks on the process
    button), [isProcessing] stays true, the simulation stays on its
    first file below 20 percent, and every later [processBatch] is
    ignored.  In particular [resetBatch] does not cancel a run. *)
Theorem started_batch_is_never_released (p : Page) (es : list Event) :
  isProcessing p = false -> files p <> [] ->
  Forall batchEventInRange es ->
  let p' := run es (processBatch p) in
  isProcessing p' = true
  /\ processBatch p' = p'
  /\ exists s,
       interval p' = Some s
       /\ currentFile s = 0%Z
       /\ (progress s < 20)%Q
       /\ filesProcessed s
          = Z.min (Z.of_nat (List.length (files p))) 10.
Proof.
  intros Hproc Hfiles Hes.
  destruct (processBatch_started p Hproc Hfiles)
    as (H1 & _ & _ & _ & H5).
  assert (Hn : (1 <= Z.of_nat (List.length (files p)))%Z).
  { destruct (files p); [congruence|cbn [List.length]; lia]. }
  pose proof (simulateBatchProcess_onFirstFile _ Hn) as Hs0.
  assert (G : forall q s,
             isProcessing q = true -> interval q = Some s -> onFirstFile s ->
             isProcessing (run es q) = true
             /\ exists s',
                  interval (run es q) = Some s' /\ onFirstFile s'
                  /\ filesProcessed s' = filesProcessed s).
  { induction Hes as [|e es He _ IH]; intros q s Q1 Q2 Q3.
    - cbn. split; [assumption|exists s; auto].
    - destruct (step_keeps_run q e s He Q1 Q2 Q3)
        as (P1 & s1 & P2 & P3 & P4).
      destruct (IH (step q e) s1 P1 P2 P3) as (R1 & s2 & R2 & R3 & R4).
      change (run (e :: es) q) with (run es (step q e)).
      split; [assumption|]. exists s2. split; [assumption|].
      split; [assumption|congruence]. }
  destruct (G _ _ H1 H5 Hs0) as (R1 & s & R2 & R3 & R4).
  intros p'. fold p' in R1, R2. split; [assumption|]. split.
  - unfold processBatch. now rewrite R1.
  - exists s. destruct R3 as (Hcf & _ & _ & _ & Hlt).
    split; [assumption|]. split; [assumption|]. split; [assumption|].
    exact R4.
Qed.

(** Three files started, a tick, a reset, new files, another start. *)
Lemma started_batch_is_never_released_witness :
  let p := selectFiles (repeat (mkFile "a.mp3" 1000 "audio/mpeg") 3) false
             constructor in
  let es := [Tick (99 # 100)%Q; ResetBatch;
             SelectFiles [mkFile "b.wav" 2000 "audio/wav"] false;
             ProcessBatch; Tick (1 # 2)%Q] in
  let p' := run es (processBatch p) in
  isProcessing p' = true
  /\ processBatch p' = p'
  /\ exists s,
       interval p' = Some s
       /\ currentFile s = 0%Z
       /\ (progress s < 20)%Q
       /\ filesProcessed s
          = Z.min (Z.of_nat (List.length (files p))) 10.
Proof.
  apply (started_batch_is_never_released
           (selectFiles (repeat (mkFile "a.mp3" 1000 "audio/mpeg") 3) false
              constructor)
           [Tick (99 # 100)%Q; ResetBatch;
            SelectFiles [mkFile "b.wav" 2000 "audio/wav"] false;
            ProcessBatch; Tick (1 # 2)%Q]).
  - reflexivity.
  - discriminate.
  - repeat constructor; discriminate.
Defined.

Lemma nth_error_fileItems (fs : list File) (operation : string) :
  forall (start k : nat),
    nth_error (fileItems fs start operation) k
    = option_map (fun f => createFileResultItem f (start + k) operation)
        (nth_error fs k).
Proof.
  induction fs as [|f fs IH]; intros start k.
  - destruct k; reflexivity.
  - destruct k as [|k]; cbn [fileItems nth_error option_map].
    + now rewrite Nat.add_0_r.
    + rewrite IH. now rewrite Nat.add_succ_r.
Qed.

(** [showBatchResults] reports every file it is given, also beyond the
    ten the simulation counts: the count is the number of files, and the
    [k]-th result carries the name and formatted size of the [k]-th
    file, the operation as selected, the status completed and the index
    [k]; nothing else on the page changes but the results being
    shown. *)
Theorem showBatchResults_lists_every_file (operation : string)
    (fs : list File) (p : Page) :
  let p' := showBatchResults operation fs p in
  resultsShown p' = true
  /\ isProcessing p' = isProcessing p
  /\ currentBatch p' = currentBatch p
  /\ log p' = log p
  /\ exists res,
       batchOutputs p' = Some res
       /\ processedCount res = List.length fs
       /\ List.length (fileResults res) = List.length fs
       /\ forall k f,
            nth_error fs k = Some f ->
            nth_error (fileResults res) k
            = Some (mkFileResultItem (name f)
                      (AudioTranslateUtils.formatFileSize (size f))
                      operation "completed" k).
Proof.
  cbv zeta. unfold showBatchResults. cbn.
  repeat (split; [reflexivity|]).
  eexists. split; [reflexivity|]. cbn.
  split; [reflexivity|]. split; [apply fileItems_length|].
  intros k f Hk. rewrite nth_error_fileItems, Hk. reflexivity.
Qed.

(** [resetBatch] empties the file input and the batch list, disables
    the process button and hides the results, and leaves a running
    simulation and [isProcessing] as they are; resetting twice is
    resetting once; and on an idle manager a [processBatch] right after
    it is refused with the request to select files. *)
Theorem resetBatch_then_processBatch (p : Page) :
  let p' := resetBatch p in
  files p' = [] /\ currentBatch p' = []
  /\ disabled (processBtn p') = true
  /\ resultsShown p' = false
  /\ isProcessing p' = isProcessing p
  /\ interval p' = interval p
  /\ resetBatch p' = p'
  /\ (isProcessing p = false ->
      processBatch p' = notify "Please select files to process." "error" p'
      /\ isProcessing (processBatch p') = false
      /\ interval (processBatch p') = interval p).
Proof.
  cbv zeta. unfold resetBatch. cbn.
  repeat (split; [reflexivity|]).
  intros Hproc. unfold processBatch. cbn. rewrite Hproc.
  repeat split; assumption.
Qed.

(** The results of a batch shown, then a reset. *)
Lemma resetBatch_then_processBatch_witness :
  let p := showBatchResults "both" [mkFile "a.mp3" 1000 "audio/mpeg"]
             (selectFiles [mkFile "a.mp3" 1000 "audio/mpeg"] false
                constructor) in
  let p' := resetBatch p in
  files p' = [] /\ currentBatch p' = []
  /\ disabled (processBtn p') = true
  /\ resultsShown p' = false
  /\ isProcessing p' = isProcessing p
  /\ interval p' = interval p
  /\ resetBatch p' = p'
  /\ (isProcessing p = false ->
      processBatch p' = notify "Please select files to process." "error" p'
      /\ isProcessing (processBatch p') = false
      /\ interval (processBatch p') = interval p).
Proof.
  apply (resetBatch_then_processBatch
           (showBatchResults "both" [mkFile "a.mp3" 1000 "audio/mpeg"]
              (selectFiles [mkFile "a.mp3" 1000 "audio/mpeg"] false
                 constructor))).
Defined.

End BatchEvents.

(** ** The artifacts of a translation on the page *)

Section ArtifactsOnPage.
Import TranslationManager.

Lemma artifacts_pairs (s : list string) (blocks : list AudioPlayer)
    (language format : string) :
  Forall2 blockOf s blocks ->
  In (language, format) (artifacts blocks)
  <-> (exists lang, In lang s /\ languageOf lang = Some language)
      /\ In format ["mp3"; "wav"; "srt"].
Proof.
  induction 1 as [|lang block s blocks Hblock _ IH].
  - cbn. split; [tauto|]. intros [(l & [] & _) _].
  - destruct (blockOf_inv lang block Hblock) as (_ & _ & _ & Hbtns & Hof).
    rewrite artifacts_cons, in_app_iff, IH, Hbtns, in_map_iff. split.
    + intros [(f & E & Hf)|[(l & Hl & E) Hf]].
      * inversion E; subst. split; [|assumption].
        exists lang. split; [now left|assumption].
      * split; [|assumption]. exists l. split; [now right|assumption].
    + intros [(l & [<-|Hl] & E) Hf].
      * left. exists format. split; [|assumption].
        rewrite Hof in E. now inversion E.
      * right. split; [|assumption]. now exists l.
Qed.

Lemma two_codes (s : list string) (a b : string) :
  NoDup s -> (forall x, In x s <-> x = a \/ x = b) -> a <> b ->
  List.length s = 2%nat.
Proof.
  intros Hnd Hin Hab.
  destruct s as [|x [|y [|z rest]]].
  - exfalso. apply (proj2 (Hin a)). now left.
  - exfalso.
    assert (Ha : In a [x]) by (apply Hin; now left).
    assert (Hb : In b [x]) by (apply Hin; now right).
    cbn in Ha, Hb. destruct Ha as [Ha|[]], Hb as [Hb|[]]. congruence.
  - reflexivity.
  - exfalso.
    assert (Hx : x = a \/ x = b) by (apply Hin; cbn; tauto).
    assert (Hy : y = a \/ y = b) by (apply Hin; cbn; tauto).
    assert (Hz : z = a \/ z = b) by (apply Hin; cbn; tauto).
    inversion Hnd as [|? ? Nx Hnd1]; subst.
    inversion Hnd1 as [|? ? Ny _]; subst.
    cbn in Nx, Ny.
    destruct Hx as [-> | ->], Hy as [-> | ->], Hz as [-> | ->]; tauto.
Qed.

(** C8. On the page, whose language options are the eight codes of the
    language table, after every sequence of events: the selected codes
    are distinct, the results are built without error, and for the N
    selected codes they hold exactly N x 3 download artifacts, one for
    every selected language and every format of the fixed set mp3, wav,
    srt, with pairwise distinct (language, format) pairs; when the
    selection is de and fr there are exactly 6. *)
Theorem translation_artifacts (es : list TranslationEvent) :
  let p := translationRun es (constructor pageLanguages) in
  let shown := showTranslationResults p in
  let outputs := translationOutputs (fst shown) in
  NoDup (selectedLanguages p)
  /\ snd shown = true
  /\ List.length (artifacts outputs)
     = (List.length (selectedLanguages p) * 3)%nat
  /\ NoDup (artifacts outputs)
  /\ (forall language format,
        In (language, format) (artifacts outputs)
        <-> (exists lang, In lang (selectedLanguages p)
                          /\ languageOf lang = Some language)
            /\ In format ["mp3"; "wav"; "srt"])
  /\ ((forall lang, In lang (selectedLanguages p)
                    <-> lang = "de" \/ lang = "fr") ->
      List.length (artifacts outputs) = 6%nat).
Proof.
  intros p shown outputs.
  assert (Hpage : NoDup pageLanguages).
  { unfold pageLanguages.
    repeat constructor; cbn; intuition discriminate. }
  destruct (translationRun_invariant pageLanguages es Hpage)
    as (_ & _ & Hnodup & Hknown).
  fold p in Hnodup, Hknown.
  assert (Hok : snd (buildOutputs (selectedLanguages p)) = true).
  { apply appendOutputs_named. apply Forall_forall.
    intros lang Hin. apply table_code_named. now apply Hknown. }
  pose proof (buildOutputs_blocks _ Hok) as Hblocks.
  assert (Hlen : List.length (artifacts outputs)
                 = (List.length (selectedLanguages p) * 3)%nat)
    by (now apply artifacts_length).
  split; [assumption|]. split; [exact Hok|]. split; [exact Hlen|].
  split; [|split].
  - apply (artifacts_NoDup (selectedLanguages p)); assumption.
  - intros language format. now apply artifacts_pairs.
  - intros Hsel. rewrite Hlen.
    rewrite (two_codes _ "de" "fr" Hnodup Hsel); [reflexivity|discriminate].
Qed.

(** German and French selected on the page as loaded. *)
Lemma translation_artifacts_witness :
  let p := translationRun [ClickLanguage 0; ClickLanguage 1]
             (constructor pageLanguages) in
  let shown := showTranslationResults p in
  let outputs := translationOutputs (fst shown) in
  NoDup (selectedLanguages p)
  /\ snd shown = true
  /\ List.length (artifacts outputs)
     = (List.length (selectedLanguages p) * 3)%nat
  /\ NoDup (artifacts outputs)
  /\ (forall language format,
        In (language, format) (artifacts outputs)
        <-> (exists lang, In lang (selectedLanguages p)
                          /\ languageOf lang = Some language)
            /\ In format ["mp3"; "wav"; "srt"])
  /\ ((forall lang, In lang (selectedLanguages p)
                    <-> lang = "de" \/ lang = "fr") ->
      List.length (artifacts outputs) = 6%nat).
Proof.
  apply (translation_artifacts [ClickLanguage 0; ClickLanguage 1]).
Defined.

Example artifacts_de_fr :
  let p := translationRun [ClickLanguage 0; ClickLanguage 1]
             (constructor pageLanguages) in
  selectedLanguages p = ["de"; "fr"]
  /\ artifacts (translationOutputs (fst (showTranslationResults p)))
     = [("german", "mp3"); ("german", "wav"); ("german", "srt");
        ("french", "mp3"); ("french", "wav"); ("french", "srt")].
Proof. split; reflexivity. Qed.

End ArtifactsOnPage.

(** ** The aggregate progress of a batch started on the page *)

Section AggregateProgress.
Import BatchProcessingManager.
Local Open Scope Q_scope.






Example aggregate_reaches_100_on_the_last_file :
  let s := mkSimulation 0 3 (100 / inject_Z 3) 2 in
  progress (fst (intervalCallback 5 s)) == 100
  /\ snd (intervalCallback 5 s) = true.
Proof. split; reflexivity. Qed.

End AggregateProgress.
